(** * scifiweb: the match/player HTTP API over a PostgreSQL pool

    A shallow embedding of the Express handlers of the repository
    (src/match.js, src/player/index.js, src/authorize.js and the two
    earlier revisions of src/index.js that the sources keep) together
    with the properties the specification states about them.

    Conventions of the model.
    - A JavaScript string is a [string] of 8-bit code units.
    - A finite JavaScript number is an exact rational ([Q]); the result of
      [parseInt] is [option Z] with [None] standing for [NaN], rounded
      as a double is above 2^53.
    - The handlers run in a state-and-exception monad over a [World] that
      carries the database, the list of queries sent to it and the number
      of pool connections taken and released.  State changes made before
      an exception is thrown are kept, as in JavaScript.
    - The database, [JSON.parse] and [Number.prototype.toString] are not
      code of the repository: the handlers take them from a [Runtime],
      and the theorems of Section [Generic] hold for every runtime.  A
      transactional model of the SQL statements the handlers send is
      given for the claims that speak about stored data. *)

From Stdlib Require Import String Ascii List ZArith QArith Bool Lia Arith.
From Stdlib Require Import DecimalString Lqa DecimalPos DecimalZ.
Import ListNotations.
Local Open Scope string_scope.
Local Open Scope Z_scope.

(** ** JavaScript built-ins used by the handlers *)

Module JS.

(** StrWhiteSpaceChar restricted to 8-bit code units: TAB, LF, VT, FF, CR,
    SP and NBSP. *)
Definition is_whitespace (c : ascii) : bool :=
  let n := nat_of_ascii c in
  (((9 <=? n) && (n <=? 13)) || (n =? 32) || (n =? 160))%nat.

Fixpoint trim_start (s : string) : string :=
  match s with
  | String c rest => if is_whitespace c then trim_start rest else s
  | EmptyString => s
  end.

(** Value of a digit in radix up to 36 ('0'-'9', 'a'-'z', 'A'-'Z'). *)
Definition digit_value (c : ascii) : option Z :=
  let n := Z.of_nat (nat_of_ascii c) in
  if (48 <=? n) && (n <=? 57) then Some (n - 48)
  else if (97 <=? n) && (n <=? 122) then Some (n - 97 + 10)
  else if (65 <=? n) && (n <=? 90) then Some (n - 65 + 10)
  else None.

(** The longest prefix of radix-[r] digits, read as a number; [acc] is
    [None] as long as no digit has been read. *)
Fixpoint read_digits (r : Z) (s : string) (acc : option Z) : option Z :=
  match s with
  | String c rest =>
      match digit_value c with
      | Some d =>
          if d <? r
          then read_digits r rest
                 (Some (match acc with Some a => a * r + d | None => d end))
          else acc
      | None => acc
      end
  | EmptyString => acc
  end.

(** The integer that [parseInt(s)], with no radix argument, reads:
    leading white space, an optional sign, an optional 0x/0X prefix, then
    the longest run of digits.  [None] is NaN. *)
Definition parse_integer (s : string) : option Z :=
  let s1 := trim_start s in
  let '(neg, s2) :=
    match s1 with
    | String "-"%char rest => (true, rest)
    | String "+"%char rest => (false, rest)
    | _ => (false, s1)
    end in
  let '(radix, s3) :=
    match s2 with
    | String "0"%char (String x rest) =>
        if (Ascii.eqb x "x" || Ascii.eqb x "X")%bool then (16, rest) else (10, s2)
    | _ => (10, s2)
    end in
  match read_digits radix s3 None with
  | Some n => Some (if neg then - n else n)
  | None => None
  end.

(** The Number value of an integer: itself up to 2^53 in absolute value,
    beyond that the nearest integer with 53 significant bits, the even
    one of two that are equally near.  (At and beyond 2^1024 JavaScript
    has Infinity, which the handlers treat as they treat a large number:
    it is not NaN and keeps its sign.  The value stays finite here.) *)
Definition to_double (n : Z) : Z :=
  let a := Z.abs n in
  if a <=? 9007199254740992 then n
  else
    let e := Z.log2 a - 52 in
    let q := Z.shiftr a e in
    let r := a - Z.shiftl q e in
    let half := Z.shiftl 1 (e - 1) in
    let q' := if ((half <? r) || ((r =? half) && Z.odd q))%bool then q + 1 else q in
    Z.sgn n * Z.shiftl q' e.

(** [parseInt(s)] with no radix argument. *)
Definition parseInt (s : string) : option Z :=
  match parse_integer s with
  | Some n => Some (to_double n)
  | None => None
  end.

(** The integers a JavaScript number holds exactly, each of them: those
    up to 2^53 in absolute value. *)
Definition exact_integer (n : Z) : Prop :=
  - 9007199254740992 <= n <= 9007199254740992.

(** [isNaN(x) || x < 0] and [isNaN(x) || x <= 0] on a parseInt result. *)
Definition nan_or_negative (x : option Z) : bool :=
  match x with None => true | Some n => n <? 0 end.

Definition nan_or_not_positive (x : option Z) : bool :=
  match x with None => true | Some n => n <=? 0 end.

(** Decimal rendering of an integer, as [String(n)] gives for an integer
    valued number below 1e21. *)
Definition string_of_Z (z : Z) : string :=
  NilZero.string_of_int (Z.to_int z).

(** JavaScript values as they come out of [JSON.parse], out of a pg result
    row, or out of a property access ([JUndefined]). *)
#[local] Unset Elimination Schemes.
Inductive value : Type :=
| JUndefined
| JNull
| JBool (b : bool)
| JNum (q : Q)
| JStr (s : string)
| JArr (items : list value)
| JObj (fields : list (string * value)).
#[local] Set Elimination Schemes.

Fixpoint lookup (k : string) (fields : list (string * value)) : option value :=
  match fields with
  | [] => None
  | (k', v) :: rest => if String.eqb k k' then Some v else lookup k rest
  end.

(** [o.k] on an object given by its fields. *)
Definition field (fields : list (string * value)) (k : string) : value :=
  match lookup k fields with Some x => x | None => JUndefined end.

(** [v.k] for a data property [k]: a TypeError on undefined and null,
    [undefined] when the property is absent or [v] is a primitive or an
    array (the keys read by the handlers are not array or string
    members). *)
Definition get_prop (v : value) (k : string) : option value :=
  match v with
  | JUndefined | JNull => None
  | JObj fields => Some (field fields k)
  | _ => Some JUndefined
  end.

(** [v === n] for a number [n]. *)
Definition strict_eq_num (v : value) (n : Q) : bool :=
  match v with JNum q => Qeq_bool q n | _ => false end.

(** The result of a division of two numbers. *)
Inductive number : Type :=
| Finite (q : Q)
| NaN
| Infinity (negative : bool).

Definition div (a b : Z) : number :=
  if b =? 0
  then (if a =? 0 then NaN else Infinity (a <? 0))
  else Finite (inject_Z a / inject_Z b)%Q.

(** The part of a query string that reaches a handler as [req.query.k]:
    absent, one string, or a repeated key collected into an array. *)
Inductive qparam : Type :=
| QAbsent
| QString (s : string)
| QArray (items : list string).

(** [String(p)], as [parseInt] and [JSON.parse] apply it to their argument. *)
Definition qparam_to_string (p : qparam) : string :=
  match p with
  | QAbsent => "undefined"
  | QString s => s
  | QArray items => String.concat "," items
  end.

End JS.

(** ** ajv: the JSON-schema keywords the repository's schemas use *)

Module Ajv.
Import JS.

Inductive jstype : Type := TArray | TNumber | TObject | TString | TBoolean | TNull.

#[local] Unset Elimination Schemes.
Inductive schema : Type :=
  Schema (type : option jstype)
         (minItems maxItems : option nat)
         (items : option schema)
         (properties : list (string * schema))
         (minimum : option Q).
#[local] Set Elimination Schemes.

Definition has_type (t : jstype) (v : value) : bool :=
  match t, v with
  | TArray, JArr _ => true
  | TNumber, JNum _ => true
  | TObject, JObj _ => true
  | TString, JStr _ => true
  | TBoolean, JBool _ => true
  | TNull, JNull => true
  | _, _ => false
  end.

(** Every keyword constrains only the values it applies to: [minItems],
    [maxItems] and [items] arrays, [properties] objects (and there only the
    properties that are present), [minimum] numbers. *)
Fixpoint validate (s : schema) (v : value) {struct s} : bool :=
  match s with
  | Schema type minItems maxItems items properties minimum =>
      (match type with Some t => has_type t v | None => true end)
      && (match minItems, v with
          | Some n, JArr l => (n <=? length l)%nat
          | _, _ => true
          end)
      && (match maxItems, v with
          | Some n, JArr l => (length l <=? n)%nat
          | _, _ => true
          end)
      && (match items, v with
          | Some s', JArr l => forallb (validate s') l
          | _, _ => true
          end)
      && (match v with
          | JObj fields =>
              (fix props (ps : list (string * schema)) : bool :=
                 match ps with
                 | [] => true
                 | (k, s') :: ps' =>
                     (match lookup k fields with
                      | Some x => validate s' x
                      | None => true
                      end) && props ps'
                 end) properties
          | _ => true
          end)
      && (match minimum, v with
          | Some m, JNum q => Qle_bool m q
          | _, _ => true
          end)
  end.

Definition compile (s : schema) : value -> bool := validate s.

(** [{ type: 'number', minimum: m }] *)
Definition number_min (m : Q) : schema :=
  Schema (Some TNumber) None None None [] (Some m).

End Ajv.

(** ** The world a handler runs in *)

(** A query as handed to pg: the SQL text and the parameter values. *)
Record Query : Type := mkQuery { text : string; params : list JS.value }.

(** A pg result: each row is an object, given by its fields; [rowCount]
    is the number of rows for the SELECT and RETURNING statements whose
    results the handlers read. *)
Record QResult : Type := mkResult { rows : list (list (string * JS.value)) }.

Definition rowCount (r : QResult) : nat := length (rows r).

(** The pool, passed to [matchRouter(pool)] and [playerRouter(pool)].
    [exec] runs one query on the connection in use ([None]: the promise is
    rejected), [connect] hands out a connection ([None]: rejected),
    [release destroy] gives it back, or destroys it when [destroy] holds. *)
Record Pool : Type := mkPool {
  DB : Type;
  exec : Query -> DB -> option QResult * DB;
  connect : DB -> option DB;
  release : bool -> DB -> DB
}.

(** The response object: [writeHead] sets the status, [write] and [end]
    append to the body, [end] finishes the response. *)
Record Response : Type := mkResponse {
  status : Z;
  body : string;
  ended : bool
}.

Definition fresh_response : Response := mkResponse 200 EmptyString false.

(** The answer of src/authorize.js to a caller it refuses. *)
Definition not_authorized : Response := mkResponse 403 "Not authorized" true.

Record World (D : Type) : Type := mkWorld {
  db : D;
  sent : list Query;        (* queries given to pg, oldest first *)
  taken : nat;              (* pool.connect() calls *)
  given_back : nat;         (* client.release() calls *)
  res : Response
}.
Arguments mkWorld {D}.
Arguments db {D}.
Arguments sent {D}.
Arguments taken {D}.
Arguments given_back {D}.
Arguments res {D}.

(** What a JavaScript [throw] carries. *)
Inductive exn : Type :=
| TypeError
| SyntaxError
| Thrown (s : string)
| DbError.

Inductive outcome (A : Type) : Type :=
| Ok (a : A)
| Throw (e : exn).
Arguments Ok {A}.
Arguments Throw {A}.

(** An incoming request: the query-string parameters and the route
    parameters the handlers read. *)
Record Request : Type := mkRequest {
  q_auth : JS.qparam;
  q_players : JS.qparam;
  q_winner : JS.qparam;
  q_p : JS.qparam;
  q_name : JS.qparam;
  q_nickname : JS.qparam;
  player_id : string
}.

(** [req.query.k] as a parameter value of a query. *)
Definition qparam_value (p : JS.qparam) : JS.value :=
  match p with
  | JS.QAbsent => JS.JUndefined
  | JS.QString s => JS.JStr s
  | JS.QArray items => JS.JArr (map JS.JStr items)
  end.

Declare Scope js_scope.
Delimit Scope js_scope with js.

(** ** The handlers *)

(** What the handlers are given and do not define: the pool passed to
    [matchRouter(pool)] and [playerRouter(pool)], [JSON.parse] ([None] is a
    SyntaxError) and [String(x)] for a finite number [x]. *)
Class Runtime : Type := mkRuntime {
  pool : Pool;
  JSON_parse : string -> option JS.value;
  number_to_string : Q -> string
}.

Section Handlers.
Import JS.

Context {rt : Runtime}.

Definition W : Type := World (DB pool).
Definition M (A : Type) : Type := W -> outcome A * W.

Definition ret {A} (a : A) : M A := fun w => (Ok a, w).

Definition bind {A B} (c : M A) (k : A -> M B) : M B :=
  fun w =>
    match c w with
    | (Ok a, w') => k a w'
    | (Throw e, w') => (Throw e, w')
    end.

Definition throw {A} (e : exn) : M A := fun w => (Throw e, w).

Notation "x <- c1 ;; c2" := (bind c1 (fun x => c2))
  (at level 61, c1 at next level, right associativity) : js_scope.
Notation "c1 ;; c2" := (bind c1 (fun _ => c2))
  (at level 61, right associativity) : js_scope.
Local Open Scope js_scope.

(** [try { c } catch (e) { h e }] *)
Definition try_catch {A} (c : M A) (h : exn -> M A) : M A :=
  fun w =>
    match c w with
    | (Ok a, w') => (Ok a, w')
    | (Throw e, w') => h e w'
    end.

(** [try { c } finally { f }]: [f] runs in both cases; an exception of
    [c] goes on after it. *)
Definition try_finally {A} (c : M A) (f : M unit) : M A :=
  fun w =>
    match c w with
    | (r, w') =>
        match f w' with
        | (Ok _, w'') => (r, w'')
        | (Throw e, w'') => (Throw e, w'')
        end
    end.

(** [for (const x of l) { body x }] *)
Fixpoint for_of {A} (l : list A) (body : A -> M unit) : M unit :=
  match l with
  | [] => ret tt
  | x :: rest => body x ;; for_of rest body
  end.

Definition set_res (f : Response -> Response) : M unit :=
  fun w => (Ok tt, mkWorld (db w) (sent w) (taken w) (given_back w) (f (res w))).

Definition writeHead (code : Z) : M unit :=
  set_res (fun r => mkResponse code (body r) (ended r)).

Definition write (chunk : string) : M unit :=
  set_res (fun r => mkResponse (status r) (body r ++ chunk) (ended r)).

Definition end_ (chunk : string) : M unit :=
  set_res (fun r => mkResponse (status r) (body r ++ chunk) true).

(** [await pool.connect()] *)
Definition pool_connect : M unit :=
  fun w =>
    match connect pool (db w) with
    | Some d => (Ok tt, mkWorld d (sent w) (S (taken w)) (given_back w) (res w))
    | None => (Throw DbError, mkWorld (db w) (sent w) (S (taken w)) (given_back w) (res w))
    end.

(** [await client.query(text, params)] and [await pool.query(text, params)]. *)
Definition query (q : Query) : M QResult :=
  fun w =>
    match exec pool q (db w) with
    | (Some r, d) => (Ok r, mkWorld d (sent w ++ [q]) (taken w) (given_back w) (res w))
    | (None, d) => (Throw DbError, mkWorld d (sent w ++ [q]) (taken w) (given_back w) (res w))
    end.

(** [client.query(text, params)] whose promise nobody awaits: the query
    is queued on the connection and runs before the later ones; a
    rejection reaches no handler. *)
Definition query_unawaited (q : Query) : M unit :=
  fun w =>
    match exec pool q (db w) with
    | (_, d) => (Ok tt, mkWorld d (sent w ++ [q]) (taken w) (given_back w) (res w))
    end.

(** [client.release()] and [client.release(true)]. *)
Definition client_release (destroy : bool) : M unit :=
  fun w =>
    (Ok tt, mkWorld (release pool destroy (db w)) (sent w)
                    (taken w) (S (given_back w)) (res w)).

Definition json_parse (s : string) : M value :=
  match JSON_parse s with Some v => ret v | None => throw SyntaxError end.

(** [v.k], a TypeError when [v] is null or undefined. *)
Definition prop (v : value) (k : string) : M value :=
  match get_prop v k with Some x => ret x | None => throw TypeError end.

(** [result.rows[0].k], a TypeError when there is no row. *)
Definition row0 (r : QResult) (k : string) : M value :=
  match rows r with
  | fields :: _ => ret (field fields k)
  | [] => throw TypeError
  end.

(** [String(v)], as string concatenation applies it. *)
Fixpoint to_string (v : value) : string :=
  match v with
  | JUndefined => "undefined"
  | JNull => "null"
  | JBool true => "true"
  | JBool false => "false"
  | JNum q => number_to_string q
  | JStr s => s
  | JArr l =>
      String.concat ","
        (map (fun x => match x with
                       | JUndefined | JNull => EmptyString
                       | _ => to_string x
                       end) l)
  | JObj _ => "[object Object]"
  end.

(** What Express does with a route: the middleware and the handler run on
    a fresh response; a rejected promise of an async handler is dropped. *)
Definition serve (route : M unit) (w : W) : W :=
  snd (route (mkWorld (db w) (sent w) (taken w) (given_back w) fresh_response)).

(** *** src/authorize.js *)

(** [req.query.auth === 'secret'] *)
Definition authorized (req : Request) : bool :=
  match q_auth req with
  | QString s => String.eqb s "secret"
  | _ => false
  end.

Definition authorize (req : Request) (next : M unit) : M unit :=
  if authorized req then next
  else writeHead 403 ;; end_ "Not authorized".

(** The handlers also call [console.log(e)] in their catch blocks; it
    touches neither the response nor the database and is left out. *)

(** *** src/match.js *)

Definition validateNewMatchData : value -> bool :=
  Ajv.compile
    (Ajv.Schema (Some Ajv.TArray) (Some 1%nat) (Some 4%nat)
       (Some (Ajv.Schema None None None None
                [("id", Ajv.number_min (-1));
                 ("kills", Ajv.number_min 0);
                 ("deaths", Ajv.number_min 0)]
                None))
       [] None).

(** The items a [for ... of] over a parsed payload visits. *)
Definition iterate (v : value) : M (list value) :=
  match v with
  | JArr l => ret l
  | _ => throw TypeError
  end.

Definition num (z : Z) : value := JNum (inject_Z z).

(** The first try block of the handler; [None] when it has answered and
    returned. *)
Definition match_new_bind (req : Request) : M (option (value * Z)) :=
  try_catch
    (players <- json_parse (qparam_to_string (q_players req)) ;;
     let winner := parseInt (qparam_to_string (q_winner req)) in
     if negb (validateNewMatchData players) then
       writeHead 400 ;; end_ "Invalid player data" ;; ret None
     else if nan_or_negative winner then
       writeHead 400 ;; end_ "Invalid winner ID" ;; ret None
     else
       ret (Some (players, match winner with Some n => n | None => 0 end)))
    (fun _ => writeHead 400 ;; end_ "Invalid player data" ;; ret None).

Definition match_new_player (winner : Z) (matchId : value) (player : value) : M unit :=
  id <- prop player "id" ;;
  if strict_eq_num id (-1) then ret tt
  else
    kills <- prop player "kills" ;;
    deaths <- prop player "deaths" ;;
    query (mkQuery
      "INSERT INTO player_matches (player, match, kills, deaths) VALUES ($1, $2, $3, $4)"
      [id; matchId; kills; deaths]) ;;
    let updatePlayer := "UPDATE players SET matches = matches + 1" in
    let updatePlayer :=
      if strict_eq_num id (inject_Z winner)
      then updatePlayer ++ ", wins = wins + 1" else updatePlayer in
    let updatePlayer :=
      updatePlayer ++ ", kills = kills + $1, deaths = deaths + $2 WHERE id = $3" in
    query (mkQuery updatePlayer [kills; deaths; id]) ;;
    ret tt.

(** The second try block. *)
Definition match_new_transaction (players : value) (winner : Z) : M unit :=
  query (mkQuery "BEGIN" []) ;;
  result <- query (mkQuery
    "INSERT INTO matches (winner) VALUES ($1) RETURNING id" [num winner]) ;;
  matchId <- row0 result "id" ;;
  items <- iterate players ;;
  for_of items (match_new_player winner matchId) ;;
  query (mkQuery "COMMIT" []) ;;
  write ("Match ID: " ++ to_string matchId).

Definition match_new_handler (req : Request) : M unit :=
  bound <- match_new_bind req ;;
  match bound with
  | None => ret tt
  | Some (players, winner) =>
      pool_connect ;;
      try_finally
        (try_catch
           (match_new_transaction players winner)
           (fun _ => writeHead 500 ;; write "Match creation failed"))
        (client_release false ;; end_ EmptyString)
  end.

(** [router.post('/new', authorize, async (req, res) => ...)] *)
Definition match_new (req : Request) : M unit :=
  authorize req (match_new_handler req).

(** *** src/player/index.js *)

Definition validatePlayerId (req : Request) (next : M unit) : M unit :=
  let id := parseInt (player_id req) in
  if nan_or_not_positive id then
    writeHead 400 ;; end_ "Invalid player ID."
  else next.

Definition player_new_handler (req : Request) : M unit :=
  let name := qparam_value (q_name req) in
  let nickname := qparam_value (q_nickname req) in
  try_catch
    (result <- query (mkQuery
       "INSERT INTO players (name, nickname) VALUES ($1, $2) RETURNING id"
       [name; nickname]) ;;
     id <- row0 result "id" ;;
     end_ ("Player ID: " ++ to_string id))
    (fun _ => writeHead 500 ;; end_ "Error creating player").

(** [router.get('/new', authorize, async (req, res) => ...)] *)
Definition player_new (req : Request) : M unit :=
  authorize req (player_new_handler req).

(** *** src/index.js, the revision with authorize and the ajv schema
    (second file of src/unnamed/part_000) *)

Definition validateOnePlayerId (idStr : string) : M Z :=
  let int := parseInt idStr in
  if nan_or_negative int then throw (Thrown "invalid id")
  else ret (match int with Some n => n | None => 0 end).

Definition validate_match_new : value -> bool :=
  Ajv.compile
    (Ajv.Schema (Some Ajv.TArray) (Some 1%nat) (Some 4%nat)
       (Some (Ajv.Schema None None None None
                [("id", Ajv.number_min 0);
                 ("kills", Ajv.number_min 0);
                 ("deaths", Ajv.number_min 0)]
                None))
       [] None).

Definition index_match_new_bind (req : Request) : M (option (value * Z)) :=
  try_catch
    (players <- json_parse (qparam_to_string (q_players req)) ;;
     if negb (validate_match_new players) then
       writeHead 400 ;; end_ "Invalid player data format" ;; ret None
     else
       winner <- validateOnePlayerId (qparam_to_string (q_winner req)) ;;
       ret (Some (players, winner)))
    (fun _ => writeHead 400 ;; end_ "Malformed data" ;; ret None).

Definition index_match_new_player (winner : Z) (matchId : value) (player : value) : M unit :=
  id <- prop player "id" ;;
  kills <- prop player "kills" ;;
  deaths <- prop player "deaths" ;;
  query (mkQuery
    "INSERT INTO player_matches (player, match, kills, deaths) VALUES ($1, $2, $3, $4)"
    [id; matchId; kills; deaths]) ;;
  let update := "UPDATE players SET matches = matches + 1" in
  let update :=
    if strict_eq_num id (inject_Z winner)
    then update ++ ", wins = wins + 1" else update in
  let update :=
    update ++ ", kills = kills + $1, deaths = deaths + $2 WHERE id = $3" in
  query (mkQuery update [kills; deaths; id]) ;;
  ret tt.

Definition index_match_new_transaction (players : value) (winner : Z) : M unit :=
  query (mkQuery "BEGIN" []) ;;
  result <- query (mkQuery
    "INSERT INTO matches (winner) VALUES ($1) RETURNING id" [num winner]) ;;
  matchId <- row0 result "id" ;;
  items <- iterate players ;;
  for_of items (index_match_new_player winner matchId) ;;
  query (mkQuery "COMMIT" []) ;;
  write ("created match " ++ to_string matchId).

Definition index_match_new_handler (req : Request) : M unit :=
  bound <- index_match_new_bind req ;;
  match bound with
  | None => ret tt
  | Some (players, winner) =>
      pool_connect ;;
      try_finally
        (try_catch
           (index_match_new_transaction players winner)
           (fun _ => writeHead 500 ;; write "match creation failed"))
        (client_release false ;; end_ EmptyString)
  end.

(** [app.post('/match/new', authorize, async (req, res) => ...)] *)
Definition index_match_new (req : Request) : M unit :=
  authorize req (index_match_new_handler req).

Definition index_player_new_handler (req : Request) : M unit :=
  let name := qparam_value (q_name req) in
  let nickname := qparam_value (q_nickname req) in
  try_catch
    (result <- query (mkQuery
       "INSERT INTO players (name, nickname) VALUES ($1, $2) RETURNING id"
       [name; nickname]) ;;
     id <- row0 result "id" ;;
     end_ ("created player " ++ to_string id))
    (fun _ => writeHead 500 ;; end_ "error creating player").

(** [app.post('/player/new', authorize, async (req, res) => ...)] *)
Definition index_player_new (req : Request) : M unit :=
  authorize req (index_player_new_handler req).

(** [xs.map(f)] for an [f] that may throw. *)
Fixpoint map_m {A B} (f : A -> M B) (l : list A) : M (list B) :=
  match l with
  | [] => ret []
  | x :: rest => y <- f x ;; ys <- map_m f rest ;; ret (y :: ys)
  end.

(** [s.substr(0, s.length - 1)] *)
Definition chop (s : string) : string :=
  substring 0 (String.length s - 1) s.

(** [app.get('/player/:player_id/matches', ...)], the same in both
    revisions of src/index.js. *)
Definition player_matches_handler (req : Request) : M unit :=
  checked <- try_catch
    (player <- validateOnePlayerId (player_id req) ;; ret (Some player))
    (fun _ => end_ "invalid player id" ;; ret None) ;;
  match checked with
  | None => ret tt
  | Some player =>
      result <- query (mkQuery
        "SELECT match FROM player_matches WHERE player = $1" [num player]) ;;
      if (rowCount result =? 0)%nat then
        end_ "no matches found"
      else
        let matchList :=
          fold_left (fun a b => a ++ to_string b ++ ",")
            (map (fun r => field r "match") (rows result)) EmptyString in
        let matchList := chop matchList in
        end_ matchList
  end.

Definition newline : string := String (ascii_of_nat 10) EmptyString.

(** [String(x)] for the result of a division. *)
Definition number_string (x : number) : string :=
  match x with
  | Finite q => number_to_string q
  | NaN => "NaN"
  | Infinity false => "Infinity"
  | Infinity true => "-Infinity"
  end.

(** [app.get('/scores/all/:player_id', ...)], the same in both revisions
    of src/index.js. *)
Definition scores_all_handler (req : Request) : M unit :=
  checked <- try_catch
    (player <- validateOnePlayerId (player_id req) ;; ret (Some player))
    (fun _ => end_ "invalid player id" ;; ret None) ;;
  match checked with
  | None => ret tt
  | Some player =>
      result <- query (mkQuery
        "SELECT winner FROM player_matches INNER JOIN matches ON player_matches.match = matches.id WHERE player = $1"
        [num player]) ;;
      let totalMatches := Z.of_nat (rowCount result) in
      let wins :=
        fold_left
          (fun total winner =>
             total + (if strict_eq_num winner (inject_Z player) then 1 else 0))
          (map (fun r => field r "winner") (rows result)) 0 in
      write ("matches: " ++ to_string (num totalMatches) ++ newline) ;;
      write ("wins: " ++ to_string (num wins) ++ newline) ;;
      write ("losses: " ++ to_string (num (totalMatches - wins)) ++ newline) ;;
      write ("win percent: " ++ number_string (div wins totalMatches) ++ newline) ;;
      end_ EmptyString
  end.

(** *** src/index.js, the first revision (src/src/index.js): no
    authorize, player ids in [p] *)

(** [playerQuery.map(validateOnePlayerId)]: a TypeError unless [p] is an
    array. *)
Definition validatePlayerIds (playerQuery : qparam) : M (list Z) :=
  match playerQuery with
  | QArray items => map_m validateOnePlayerId items
  | _ => throw TypeError
  end.

Definition first_match_new_transaction (players : list Z) (winner : Z) : M unit :=
  query (mkQuery "BEGIN" []) ;;
  result <- query (mkQuery
    "INSERT INTO matches (winner) VALUES ($1) RETURNING id" [num winner]) ;;
  match_id <- row0 result "id" ;;
  for_of players (fun player =>
    query_unawaited (mkQuery
      "INSERT INTO player_matches (player, match) VALUES ($1, $2)"
      [num player; match_id])) ;;
  query (mkQuery "COMMIT" []) ;;
  client_release false ;;
  write ("created match " ++ to_string match_id).

Definition first_match_new (req : Request) : M unit :=
  bound <- try_catch
    (players <- validatePlayerIds (q_p req) ;;
     winner <- validateOnePlayerId (qparam_to_string (q_winner req)) ;;
     ret (Some (players, winner)))
    (fun _ => end_ "invalid id" ;; ret None) ;;
  match bound with
  | None => ret tt
  | Some (players, winner) =>
      pool_connect ;;
      try_finally
        (try_catch
           (first_match_new_transaction players winner)
           (fun _ => client_release true ;; write "match creation failed"))
        (end_ EmptyString)
  end.

Definition first_player_new (req : Request) : M unit :=
  let name := qparam_value (q_name req) in
  let nickname := qparam_value (q_nickname req) in
  try_catch
    (result <- query (mkQuery
       "INSERT INTO players (name, nickname) VALUES ($1, $2) RETURNING id"
       [name; nickname]) ;;
     id <- row0 result "id" ;;
     end_ ("created player " ++ to_string id))
    (fun _ => end_ "error creating player").

(** *** Vocabulary of the properties *)

(** The world after an invocation that only answered [r]. *)
Definition answer (w : W) (r : Response) : W :=
  mkWorld (db w) (sent w) (taken w) (given_back w) r.

(** The parameters pass the checks of the first try block of src/match.js:
    the payload parses, satisfies the schema, and the winner parses to a
    number that is not negative. *)
Definition binding_ok (req : Request) : bool :=
  match JSON_parse (qparam_to_string (q_players req)) with
  | Some players =>
      validateNewMatchData players
      && negb (nan_or_negative (parseInt (qparam_to_string (q_winner req))))
  | None => false
  end.

(** The same for the earlier revision of src/index.js. *)
Definition index_binding_ok (req : Request) : bool :=
  match JSON_parse (qparam_to_string (q_players req)) with
  | Some players =>
      validate_match_new players
      && negb (nan_or_negative (parseInt (qparam_to_string (q_winner req))))
  | None => false
  end.

(** [player.id] of a payload entry that is not null. *)
Definition entry_id (player : value) : value :=
  match get_prop player "id" with Some x => x | None => JUndefined end.

(** [player.id === -1] *)
Definition unknown_player (player : value) : bool :=
  strict_eq_num (entry_id player) (-1).

(** The two statements src/match.js sends for an entry it does not skip. *)
Definition entry_statements (winner : Z) (matchId : value) (player : value)
    : list Query :=
  let id := entry_id player in
  let kills := match get_prop player "kills" with Some x => x | None => JUndefined end in
  let deaths := match get_prop player "deaths" with Some x => x | None => JUndefined end in
  [mkQuery
     "INSERT INTO player_matches (player, match, kills, deaths) VALUES ($1, $2, $3, $4)"
     [id; matchId; kills; deaths];
   mkQuery
     (if strict_eq_num id (inject_Z winner)
      then "UPDATE players SET matches = matches + 1, wins = wins + 1, kills = kills + $1, deaths = deaths + $2 WHERE id = $3"
      else "UPDATE players SET matches = matches + 1, kills = kills + $1, deaths = deaths + $2 WHERE id = $3")
     [kills; deaths; id]].

(** Everything src/match.js sends for an accepted payload when nothing
    fails: entries of unknown players contribute nothing. *)
Definition match_new_statements (winner : Z) (matchId : value) (items : list value)
    : list Query :=
  ([mkQuery "BEGIN" [];
    mkQuery "INSERT INTO matches (winner) VALUES ($1) RETURNING id" [num winner]]
   ++ flat_map (entry_statements winner matchId)
        (filter (fun player => negb (unknown_player player)) items)
   ++ [mkQuery "COMMIT" []])%list.

(** [w'] is [w] after the queries [new] were sent, with the response and
    the connection counts as they were. *)
Definition extends (w w' : W) (new : list Query) : Prop :=
  sent w' = (sent w ++ new)%list
  /\ res w' = res w
  /\ taken w' = taken w
  /\ given_back w' = given_back w.

End Handlers.

Arguments validateNewMatchData : simpl never.
Arguments validate_match_new : simpl never.
Arguments JS.parseInt : simpl never.
Arguments JS.to_double : simpl never.
Arguments JS.nan_or_negative : simpl never.
Arguments JS.nan_or_not_positive : simpl never.
Arguments JS.qparam_to_string : simpl never.
Arguments JS.strict_eq_num : simpl never.
Arguments to_string : simpl never.
Arguments String.append : simpl never.

(** ** A transactional model of the database

    PostgreSQL is not code of the repository.  The model below gives the
    SQL statements that occur in the sources their standard meaning on
    three tables, and gives BEGIN and COMMIT the meaning they have on one
    connection: the statements of an open transaction work on a private
    copy that COMMIT makes the committed data; a statement that fails
    inside a transaction aborts it, after which every statement fails
    until COMMIT ends the transaction without applying anything.  The
    table definitions are not in the sources, so no constraint is built
    in: [rejects] stands for whatever makes PostgreSQL refuse a statement
    or a COMMIT (a constraint, a type error, a lost connection).  The
    counters of the ids are sequences: what a transaction has drawn from
    them stays drawn when it is rolled back.  The pool is one connection,
    handed out again after it was given back, in the state it was left
    in. *)

Module Pg.
Import JS.

(** A nullable numeric column. *)
Definition sqlnum : Type := option Q.

Record PlayerRow : Type := mkPlayer {
  p_id : Z;
  p_name : value;
  p_nickname : value;
  p_matches : sqlnum;
  p_wins : sqlnum;
  p_kills : sqlnum;
  p_deaths : sqlnum
}.

Record MatchRow : Type := mkMatch { m_id : Z; m_winner : sqlnum }.

Record PlayerMatchRow : Type := mkPlayerMatch {
  pm_player : sqlnum;
  pm_match : sqlnum;
  pm_kills : sqlnum;
  pm_deaths : sqlnum
}.

Record Store : Type := mkStore {
  next_match_id : Z;
  next_player_id : Z;
  matches : list MatchRow;
  player_matches : list PlayerMatchRow;
  players : list PlayerRow
}.

(** A parameter bound to a numeric column: undefined and null are sent as
    NULL, anything that is not a number is a type error. *)
Definition as_num (v : value) : option sqlnum :=
  match v with
  | JNum q => Some (Some q)
  | JUndefined | JNull => Some None
  | _ => None
  end.

Definition of_num (x : sqlnum) : value :=
  match x with Some q => JNum q | None => JNull end.

(** SQL [a + b] and [a = b]: NULL as soon as one side is NULL. *)
Definition add (a b : sqlnum) : sqlnum :=
  match a, b with
  | Some x, Some y => Some (x + y)%Q
  | _, _ => None
  end.

Definition matches_id (id : Z) (x : sqlnum) : bool :=
  match x with Some q => Qeq_bool (inject_Z id) q | None => false end.

Definition same (a b : sqlnum) : bool :=
  match a, b with Some x, Some y => Qeq_bool x y | _, _ => false end.

Definition update_player (with_win : bool) (kills deaths id : sqlnum)
    (p : PlayerRow) : PlayerRow :=
  if matches_id (p_id p) id then
    mkPlayer (p_id p) (p_name p) (p_nickname p)
      (add (p_matches p) (Some 1%Q))
      (if with_win then add (p_wins p) (Some 1%Q) else p_wins p)
      (add (p_kills p) kills)
      (add (p_deaths p) deaths)
  else p.

Definition row (k : string) (v : value) : list (string * value) := [(k, v)].

(** One statement on the data; [None] is an error of the statement. *)
Definition apply (q : Query) (s : Store) : option (QResult * Store) :=
  let t := text q in
  if String.eqb t "INSERT INTO matches (winner) VALUES ($1) RETURNING id" then
    match params q with
    | [w] =>
        match as_num w with
        | Some winner =>
            let id := next_match_id s in
            Some (mkResult [row "id" (JNum (inject_Z id))],
                  mkStore (id + 1) (next_player_id s)
                    (matches s ++ [mkMatch id winner])
                    (player_matches s) (players s))
        | None => None
        end
    | _ => None
    end
  else if String.eqb t
    "INSERT INTO player_matches (player, match, kills, deaths) VALUES ($1, $2, $3, $4)" then
    match params q with
    | [a; b; c; d] =>
        match as_num a, as_num b, as_num c, as_num d with
        | Some player, Some mtch, Some kills, Some deaths =>
            Some (mkResult [],
                  mkStore (next_match_id s) (next_player_id s) (matches s)
                    (player_matches s ++ [mkPlayerMatch player mtch kills deaths])
                    (players s))
        | _, _, _, _ => None
        end
    | _ => None
    end
  else if String.eqb t "INSERT INTO player_matches (player, match) VALUES ($1, $2)" then
    match params q with
    | [a; b] =>
        match as_num a, as_num b with
        | Some player, Some mtch =>
            Some (mkResult [],
                  mkStore (next_match_id s) (next_player_id s) (matches s)
                    (player_matches s ++ [mkPlayerMatch player mtch None None])
                    (players s))
        | _, _ => None
        end
    | _ => None
    end
  else if (String.eqb t
    "UPDATE players SET matches = matches + 1, wins = wins + 1, kills = kills + $1, deaths = deaths + $2 WHERE id = $3"
    || String.eqb t
    "UPDATE players SET matches = matches + 1, kills = kills + $1, deaths = deaths + $2 WHERE id = $3")%bool then
    match params q with
    | [a; b; c] =>
        match as_num a, as_num b, as_num c with
        | Some kills, Some deaths, Some id =>
            let with_win := String.eqb t
              "UPDATE players SET matches = matches + 1, wins = wins + 1, kills = kills + $1, deaths = deaths + $2 WHERE id = $3" in
            Some (mkResult [],
                  mkStore (next_match_id s) (next_player_id s) (matches s)
                    (player_matches s)
                    (map (update_player with_win kills deaths id) (players s)))
        | _, _, _ => None
        end
    | _ => None
    end
  else if String.eqb t
    "INSERT INTO players (name, nickname) VALUES ($1, $2) RETURNING id" then
    match params q with
    | [name; nickname] =>
        let id := next_player_id s in
        Some (mkResult [row "id" (JNum (inject_Z id))],
              mkStore (next_match_id s) (id + 1) (matches s) (player_matches s)
                (players s ++ [mkPlayer id name nickname
                                 (Some 0%Q) (Some 0%Q) (Some 0%Q) (Some 0%Q)]))
    | _ => None
    end
  else if String.eqb t "SELECT match FROM player_matches WHERE player = $1" then
    match params q with
    | [a] =>
        match as_num a with
        | Some player =>
            Some (mkResult
                    (map (fun r => row "match" (of_num (pm_match r)))
                       (filter (fun r => same (pm_player r) player) (player_matches s))),
                  s)
        | None => None
        end
    | _ => None
    end
  else if String.eqb t
    "SELECT winner FROM player_matches INNER JOIN matches ON player_matches.match = matches.id WHERE player = $1" then
    match params q with
    | [a] =>
        match as_num a with
        | Some player =>
            Some (mkResult
                    (flat_map
                       (fun r =>
                          map (fun m => row "winner" (of_num (m_winner m)))
                            (filter (fun m => matches_id (m_id m) (pm_match r)) (matches s)))
                       (filter (fun r => same (pm_player r) player) (player_matches s))),
                  s)
        | None => None
        end
    | _ => None
    end
  else None.

(** The three tables of a store, without the counters of the ids. *)
Definition tables (s : Store)
    : list MatchRow * list PlayerMatchRow * list PlayerRow :=
  (matches s, player_matches s, players s).

(** The tables of [c] with the counters of the ids as [w] has them: the
    committed data after a transaction that worked on [w] is rolled
    back. *)
Definition keep_ids (c w : Store) : Store :=
  mkStore (next_match_id w) (next_player_id w)
    (matches c) (player_matches c) (players c).

(** The state of the connection. *)
Inductive txn : Type :=
| Idle
| Open (work : Store)
| Aborted.

Record State : Type := mkState { committed : Store; conn : txn }.

Section Server.
Variable rejects : Store -> Query -> bool.

Definition statement (q : Query) (s : Store) : option (QResult * Store) :=
  if rejects s q then None else apply q s.

Definition exec (q : Query) (st : State) : option QResult * State :=
  if String.eqb (text q) "BEGIN" then
    match conn st with
    | Idle => (Some (mkResult []), mkState (committed st) (Open (committed st)))
    | Open w => (Some (mkResult []), st)
    | Aborted => (None, st)
    end
  else if String.eqb (text q) "COMMIT" then
    match conn st with
    | Idle => (Some (mkResult []), st)
    | Open w =>
        if rejects w q
        then (None, mkState (keep_ids (committed st) w) Idle)
        else (Some (mkResult []), mkState w Idle)
    | Aborted => (Some (mkResult []), mkState (committed st) Idle)
    end
  else
    match conn st with
    | Idle =>
        match statement q (committed st) with
        | Some (r, s') => (Some r, mkState s' Idle)
        | None => (None, st)
        end
    | Open w =>
        match statement q w with
        | Some (r, w') => (Some r, mkState (committed st) (Open w'))
        | None => (None, mkState (keep_ids (committed st) w) Aborted)
        end
    | Aborted => (None, st)
    end.

(** The committed data once the session is closed: an open transaction
    is rolled back. *)
Definition closed (st : State) : Store :=
  match conn st with
  | Open w => keep_ids (committed st) w
  | _ => committed st
  end.

(** Giving the connection back leaves it as it is; destroying it closes
    the session, which discards an open transaction. *)
Definition release (destroy : bool) (st : State) : State :=
  if destroy then mkState (closed st) Idle else st.

Definition pool : Pool := mkPool State exec (fun st => Some st) release.

End Server.


(** The server when nothing is refused beyond the errors of the
    statements themselves. *)
Definition lenient : Store -> Query -> bool := fun _ _ => false.

End Pg.

(** The handlers on the transactional model: a server that refuses the
    statements [rejects] selects, and any [JSON.parse] and [String]. *)
Definition transactional (rejects : Pg.Store -> Query -> bool)
    (parse : string -> option JS.value) (show : Q -> string) : Runtime :=
  mkRuntime (Pg.pool rejects) parse show.

(** ** Concrete stand-ins for the built-ins, used to run the model *)

Module Run.
Import JS.

(** [String(x)] on integers; the quotient form of the other branch is not
    what JavaScript prints and no example below reaches it. *)
Definition show_number (q : Q) : string :=
  let r := Qred q in
  if (Qden r =? 1)%positive then string_of_Z (Qnum r)
  else string_of_Z (Qnum r) ++ "/" ++ string_of_Z (Zpos (Qden r)).

(** [JSON.parse] on the texts of a table; a SyntaxError elsewhere. *)
Definition parse_table (table : list (string * value)) (s : string) : option value :=
  lookup s table.

Definition dq : string := String (ascii_of_nat 34) EmptyString.

(** The JSON text of [{"id":i,"kills":k,"deaths":d}] and its value. *)
Definition entry_text (id kills deaths : Z) : string :=
  "{" ++ dq ++ "id" ++ dq ++ ":" ++ string_of_Z id ++ ","
      ++ dq ++ "kills" ++ dq ++ ":" ++ string_of_Z kills ++ ","
      ++ dq ++ "deaths" ++ dq ++ ":" ++ string_of_Z deaths ++ "}".

Definition entry (id kills deaths : Z) : value :=
  JObj [("id", JNum (inject_Z id));
        ("kills", JNum (inject_Z kills));
        ("deaths", JNum (inject_Z deaths))].

(** [[{"id":1,"kills":3,"deaths":1},{"id":2,"kills":0,"deaths":2}]] *)
Definition two_players_text : string :=
  "[" ++ entry_text 1 3 1 ++ "," ++ entry_text 2 0 2 ++ "]".
Definition two_players : value := JArr [entry 1 3 1; entry 2 0 2].

(** [[{"id":1}]] *)
Definition id_only_text : string := "[{" ++ dq ++ "id" ++ dq ++ ":1}]".
Definition id_only : value := JArr [JObj [("id", JNum 1)]].

(** [[{"id":-1,"kills":5,"deaths":5},{"id":2,"kills":0,"deaths":2}]] *)
Definition with_unknown_text : string :=
  "[" ++ entry_text (-1) 5 5 ++ "," ++ entry_text 2 0 2 ++ "]".
Definition with_unknown : value := JArr [entry (-1) 5 5; entry 2 0 2].

Definition parse : string -> option value :=
  parse_table
    [(two_players_text, two_players);
     (id_only_text, id_only);
     (with_unknown_text, with_unknown)].

Definition request (auth players winner : qparam) : Request :=
  mkRequest auth players winner QAbsent QAbsent QAbsent EmptyString.

Definition get (id : string) : Request :=
  mkRequest QAbsent QAbsent QAbsent QAbsent QAbsent QAbsent id.

Definition new_player (id : Z) : Pg.PlayerRow :=
  Pg.mkPlayer id (JStr "p") JNull (Some 0%Q) (Some 0%Q) (Some 0%Q) (Some 0%Q).

(** Two registered players, no match yet, an idle connection. *)
Definition store0 : Pg.Store :=
  Pg.mkStore 1 3 [] [] [new_player 1; new_player 2].

Definition world0 : World Pg.State :=
  mkWorld (Pg.mkState store0 Pg.Idle) [] 0 0 fresh_response.


(** The transactional model with the stand-ins. *)
Definition runtime (rejects : Pg.Store -> Query -> bool) : Runtime :=
  transactional rejects parse show_number.

(** players=[{"id":1,"kills":3,"deaths":1},{"id":2,"kills":0,"deaths":2}]
    winner=1 auth=secret *)
Definition two_players_request : Request :=
  request (QString "secret") (QString two_players_text) (QString "1").

(** The same without the auth parameter. *)
Definition anonymous_request : Request :=
  request QAbsent (QString two_players_text) (QString "1").

(** No auth parameter, a payload that is not JSON, a winner that is not a
    number. *)
Definition anonymous_garbage_request : Request :=
  request QAbsent (QString "not json") (QString "nobody").

(** auth=secret with the same parameters. *)
Definition garbage_request : Request :=
  request (QString "secret") (QString "not json") (QString "nobody").

(** players=[{"id":1}] winner=1 auth=secret *)
Definition id_only_request : Request :=
  request (QString "secret") (QString id_only_text) (QString "1").

(** players=[{"id":-1,"kills":5,"deaths":5},{"id":2,"kills":0,"deaths":2}]
    winner=2 auth=secret *)
Definition with_unknown_request : Request :=
  request (QString "secret") (QString with_unknown_text) (QString "2").

(** p=1&p=2&winner=1, for the first revision of src/index.js. *)
Definition first_request : Request :=
  mkRequest QAbsent QAbsent (QString "1") (QArray ["1"; "2"]) QAbsent QAbsent
    EmptyString.




(** The world after [[{"id":1}]] was posted to a server that refuses
    nothing. *)
Definition after_id_only_match : World Pg.State :=
  @serve (runtime Pg.lenient) (match_new id_only_request) world0.

(** A store in which players 1 and 2 played match 1, won by player 1. *)
Definition store1 : Pg.Store :=
  Pg.mkStore 2 3 [Pg.mkMatch 1 (Some 1%Q)]
    [Pg.mkPlayerMatch (Some 1%Q) (Some 1%Q) (Some 3%Q) (Some 1%Q);
     Pg.mkPlayerMatch (Some 2%Q) (Some 1%Q) (Some 0%Q) (Some 2%Q)]
    [new_player 1; new_player 2].

Definition world1 : World Pg.State :=
  mkWorld (Pg.mkState store1 Pg.Idle) [] 0 0 fresh_response.

End Run.

(** ** The Economy Store of the specification *)

Module Economy.

(** Modelled from the spec: the Economy Store (sections 4.5, 4.6 and 8),
    which holds a balance per owner and collectable type and offers
    getBalance, credit and debit.  The repository has no implementation
    of it: src/vm holds example programs and a design note only.  A debit
    whose resulting balance would go below zero fails with
    InsufficientBalanceError; a credit never fails on balance grounds; a
    balance nobody credited is 0. *)
Definition Store : Type := string -> string -> Z.

Inductive error : Type := InsufficientBalanceError.

Definition getBalance (s : Store) (owner type : string) : Z := s owner type.

Definition set_balance (s : Store) (owner type : string) (balance : Z) : Store :=
  fun o t => if (String.eqb o owner && String.eqb t type)%bool then balance else s o t.

Definition credit (s : Store) (owner type : string) (amount : Z) : Store :=
  set_balance s owner type (getBalance s owner type + amount).

(** The result of the call and the store after it. *)
Definition debit (s : Store) (owner type : string) (amount : Z)
    : (error + unit) * Store :=
  let balance := getBalance s owner type in
  if balance - amount <? 0 then (inl InsufficientBalanceError, s)
  else (inr tt, set_balance s owner type (balance - amount)).

Definition empty : Store := fun _ _ => 0.

End Economy.

(** ** The remaining routes *)

Section Routes.
Import JS.

Context {rt : Runtime}.
(** [JSON.stringify] of the rows of a result. *)
Variable JSON_stringify : list (list (string * value)) -> string.

Notation "x <- c1 ;; c2" := (bind c1 (fun x => c2))
  (at level 61, c1 at next level, right associativity) : js_scope.
Notation "c1 ;; c2" := (bind c1 (fun _ => c2))
  (at level 61, right associativity) : js_scope.
Local Open Scope js_scope.

(** [res.end(chunk)] where the response may be finished already: Node
    leaves a finished response as it is. *)
Definition end_again (chunk : string) : M unit :=
  fun w => if ended (res w) then (Ok tt, w) else end_ chunk w.

(** *** src/player/stats.js (src/unnamed/part_001) *)

(** [router.get('/competitors', ...)]: the player is the path parameter
    as it is, a string. *)
Definition stats_competitors (req : Request) : M unit :=
  let player := JStr (player_id req) in
  result <- query (mkQuery
    ("SELECT DISTINCT ON (p.id) p.id, p.name, p.matches, p.wins, p.kills, p.deaths FROM players p"
     ++ " JOIN player_matches pm1 ON pm1.player = p.id"
     ++ " JOIN player_matches pm2 ON pm1.match = pm2.match"
     ++ " WHERE pm2.player = $1")
    [player]) ;;
  if (rowCount result =? 0)%nat then
    end_ "[]"
  else
    end_ (JSON_stringify (rows result)).

(** *** src/player/index.js, the mount of the stats router *)

(** [router.use('/:player_id/stats', validatePlayerId, statsRouter(pool))]
    on the path /:player_id/stats/competitors. *)
Definition player_stats_competitors (req : Request) : M unit :=
  validatePlayerId req (stats_competitors req).

(** *** src/index.js (second file of src/unnamed/part_000), the
    competitors route *)

(** [app.get('/player/:player_id/stats/competitors', ...)]: the catch
    block answers and does not return, so the handler goes on with
    [player] undefined. *)
Definition index_competitors (req : Request) : M unit :=
  player <- try_catch
    (player <- validateOnePlayerId (player_id req) ;; ret (num player))
    (fun _ => writeHead 400 ;; end_ EmptyString ;; ret JUndefined) ;;
  result <- query (mkQuery
    ("SELECT DISTINCT p.id, p.name, p.matches, p.wins, p.kills, p.deaths FROM players p"
     ++ " JOIN player_matches pm1 ON pm1.player = p.id"
     ++ " JOIN player_matches pm2 ON pm1.match = pm2.match"
     ++ " WHERE pm2.player = $1")
    [player]) ;;
  if (rowCount result =? 0)%nat then
    end_again "[]"
  else
    end_again (JSON_stringify (rows result)).

(** *** Vocabulary of the properties of these routes *)

(** The ids of the first revision of src/index.js pass its checks: [p]
    is an array, each of its elements and the winner parse to a number
    that is not negative. *)
Definition first_binding_ok (req : Request) : bool :=
  match q_p req with
  | QArray ids =>
      forallb (fun s => negb (nan_or_negative (parseInt s))) ids
      && negb (nan_or_negative (parseInt (qparam_to_string (q_winner req))))
  | _ => false
  end.

(** [winner === player] counted over the rows of a result, as the reduce
    of the score summary does. *)
Definition count_wins (player : Z) (result : QResult) : Z :=
  fold_left
    (fun total winner =>
       total + (if strict_eq_num winner (inject_Z player) then 1 else 0))
    (map (fun r => field r "winner") (rows result)) 0.

End Routes.

(** ** What a match creation stores *)

Module Ledger.
Import JS.

(** A value bound to a numeric column, NULL unless it is a number. *)
Definition sql_of (v : value) : Pg.sqlnum :=
  match v with JNum q => Some q | _ => None end.

(** [player.k], undefined on a value without properties. *)
Definition entry_prop (player : value) (k : string) : value :=
  match get_prop player k with Some x => x | None => JUndefined end.

(** The store after the two statements of src/match.js for one entry of
    the payload of match [mid]: nothing for an unknown player, else a row
    in player_matches and the counters of the player with that id. *)
Definition record_entry (winner mid : Z) (s : Pg.Store) (player : value) : Pg.Store :=
  if unknown_player player then s
  else
    Pg.mkStore (Pg.next_match_id s) (Pg.next_player_id s) (Pg.matches s)
      (Pg.player_matches s
       ++ [Pg.mkPlayerMatch (sql_of (entry_id player)) (Some (inject_Z mid))
             (sql_of (entry_prop player "kills"))
             (sql_of (entry_prop player "deaths"))])
      (map (Pg.update_player
              (strict_eq_num (entry_id player) (inject_Z winner))
              (sql_of (entry_prop player "kills"))
              (sql_of (entry_prop player "deaths"))
              (sql_of (entry_id player)))
         (Pg.players s)).

(** The entries of a payload that src/match.js does not skip. *)
Definition known (items : list value) : list value :=
  filter (fun player => negb (unknown_player player)) items.

(** The row of player_matches for an entry of the payload of match
    [mid]. *)
Definition entry_row (mid : Z) (player : value) : Pg.PlayerMatchRow :=
  Pg.mkPlayerMatch (sql_of (entry_id player)) (Some (inject_Z mid))
    (sql_of (entry_prop player "kills")) (sql_of (entry_prop player "deaths")).

(** The table of players after the UPDATE for an entry. *)
Definition entry_update (winner : Z) (ps : list Pg.PlayerRow) (player : value)
    : list Pg.PlayerRow :=
  map (Pg.update_player
         (strict_eq_num (entry_id player) (inject_Z winner))
         (sql_of (entry_prop player "kills"))
         (sql_of (entry_prop player "deaths"))
         (sql_of (entry_id player)))
    ps.

(** The store after a match won by [winner] with the entries [items]:
    the match gets the next id. *)
Definition record_match (winner : Z) (items : list value) (s : Pg.Store) : Pg.Store :=
  fold_left (record_entry winner (Pg.next_match_id s)) items
    (Pg.mkStore (Pg.next_match_id s + 1) (Pg.next_player_id s)
       (Pg.matches s ++ [Pg.mkMatch (Pg.next_match_id s) (Some (inject_Z winner))])
       (Pg.player_matches s) (Pg.players s)).

(** The store after the first revision of src/index.js recorded a match
    with the players [ids]. *)
Definition record_first_match (winner : Z) (ids : list Z) (s : Pg.Store) : Pg.Store :=
  Pg.mkStore (Pg.next_match_id s + 1) (Pg.next_player_id s)
    (Pg.matches s ++ [Pg.mkMatch (Pg.next_match_id s) (Some (inject_Z winner))])
    (Pg.player_matches s
     ++ map (fun id =>
               Pg.mkPlayerMatch (Some (inject_Z id))
                 (Some (inject_Z (Pg.next_match_id s))) None None) ids)
    (Pg.players s).

(** The matches stored for player [q], as the match list prints them. *)
Definition listing (show : Q -> string) (s : Pg.Store) (q : Z) : list string :=
  map (fun r => match Pg.pm_match r with Some m => show m | None => "null" end)
    (filter (fun r => Pg.same (Pg.pm_player r) (Some (inject_Z q)))
       (Pg.player_matches s)).

(** The counters of a player are numbers that are not negative. *)
Definition counted (p : Pg.PlayerRow) : Prop :=
  exists m w k d,
    Pg.p_matches p = Some m /\ Pg.p_wins p = Some w
    /\ Pg.p_kills p = Some k /\ Pg.p_deaths p = Some d
    /\ (0 <= m)%Q /\ (0 <= w)%Q /\ (0 <= k)%Q /\ (0 <= d)%Q.

(** [p'] is the player [p] with counters that are numbers not below
    those of [p]. *)
Definition grown (p p' : Pg.PlayerRow) : Prop :=
  Pg.p_id p' = Pg.p_id p
  /\ exists m w k d m' w' k' d',
       Pg.p_matches p = Some m /\ Pg.p_wins p = Some w
       /\ Pg.p_kills p = Some k /\ Pg.p_deaths p = Some d
       /\ Pg.p_matches p' = Some m' /\ Pg.p_wins p' = Some w'
       /\ Pg.p_kills p' = Some k' /\ Pg.p_deaths p' = Some d'
       /\ (m <= m')%Q /\ (w <= w')%Q /\ (k <= k')%Q /\ (d <= d')%Q.

(** The entry carries its two counts. *)
Definition complete (player : value) : bool :=
  match entry_prop player "kills", entry_prop player "deaths" with
  | JNum _, JNum _ => true
  | _, _ => false
  end.

End Ledger.

(** Payloads and requests for the examples of the remaining routes. *)
Module Run2.
Import JS.

(** [[null]] *)
Definition null_entry_text : string := "[null]".
Definition null_entry : value := JArr [JNull].

(** [[7,8]] *)
Definition numbers_text : string := "[7,8]".
Definition numbers : value := JArr [JNum 7; JNum 8].

(** [[{"id":-0.5}]] *)
Definition half_id_text : string :=
  "[{" ++ Run.dq ++ "id" ++ Run.dq ++ ":-0.5}]".
Definition half_id : value := JArr [JObj [("id", JNum (-1 # 2))]].

(** [[{"id":1,"kills":3,"deaths":1},null]] *)
Definition one_then_null_text : string :=
  "[" ++ Run.entry_text 1 3 1 ++ ",null]".
Definition one_then_null : value := JArr [Run.entry 1 3 1; JNull].

Definition parse : string -> option value :=
  Run.parse_table
    [(Run.two_players_text, Run.two_players);
     (Run.with_unknown_text, Run.with_unknown);
     (one_then_null_text, one_then_null);
     (null_entry_text, null_entry);
     (numbers_text, numbers);
     (half_id_text, half_id)].

Definition runtime : Runtime := transactional Pg.lenient parse Run.show_number.

(** players=[null] winner=1 auth=secret *)
Definition null_entry_request : Request :=
  Run.request (QString "secret") (QString null_entry_text) (QString "1").

(** players=[{"id":1,"kills":3,"deaths":1},null] winner=1 auth=secret *)
Definition one_then_null_request : Request :=
  Run.request (QString "secret") (QString one_then_null_text) (QString "1").

(** A stand-in for [JSON.stringify]: the number of rows between
    brackets, enough to tell results apart. *)
Definition stringify (rows : list (list (string * value))) : string :=
  "[" ++ string_of_Z (Z.of_nat (length rows)) ++ " rows]".

(** A pool that hands out no connection. *)
Definition exhausted : Runtime :=
  mkRuntime
    (mkPool Pg.State (Pg.exec Pg.lenient) (fun _ => None) Pg.release)
    parse Run.show_number.

(** A server that refuses every statement. *)
Definition refuse_all : Pg.Store -> Query -> bool := fun _ _ => true.

(** p=1&p=x&winner=1, for the first revision of src/index.js. *)
Definition first_invalid_request : Request :=
  mkRequest QAbsent QAbsent (QString "1") (QArray ["1"; "x"]) QAbsent QAbsent
    EmptyString.

End Run2.

(** * Properties *)

Example parseInt_7 : JS.parseInt "7" = Some 7. Proof. reflexivity. Qed.
Example parseInt_neg : JS.parseInt "  -12abc" = Some (-12). Proof. reflexivity. Qed.
Example parseInt_hex : JS.parseInt "0x1f" = Some 31. Proof. reflexivity. Qed.
Example parseInt_nan : JS.parseInt "abc" = None. Proof. reflexivity. Qed.
Example parseInt_rounds_tie_down :
  JS.parseInt "9007199254740993" = Some 9007199254740992.
Proof. vm_compute. reflexivity. Qed.
Example parseInt_rounds_tie_up :
  JS.parseInt "9007199254740995" = Some 9007199254740996.
Proof. vm_compute. reflexivity. Qed.
Example parseInt_rounds_up :
  JS.parseInt "36028797018963973" = Some 36028797018963976.
Proof. vm_compute. reflexivity. Qed.
Example parseInt_0x : JS.parseInt "0x" = None. Proof. reflexivity. Qed.
Example parseInt_undefined : JS.parseInt (JS.qparam_to_string JS.QAbsent) = None.
Proof. reflexivity. Qed.
Example string_of_Z_12 : JS.string_of_Z 12 = "12". Proof. reflexivity. Qed.
Example string_of_Z_0 : JS.string_of_Z 0 = "0". Proof. reflexivity. Qed.

(** ** Properties that hold for every database *)

Section Generic.
Import JS.

Context {rt : Runtime}.

Lemma serve_authorize_refused (req : Request) (next : M unit) (w : W) :
  authorized req = false ->
  serve (authorize req next) w = answer w not_authorized.
Proof.
  intros Hauth. unfold serve, authorize. rewrite Hauth. reflexivity.
Qed.

Lemma serve_authorize_passed (req : Request) (next : M unit) (w : W) :
  authorized req = true ->
  serve (authorize req next) w = serve next w.
Proof.
  intros Hauth. unfold serve, authorize. rewrite Hauth. reflexivity.
Qed.

(** C1. An invocation of a mutating route (match creation, player
    creation, in the routers and in the earlier src/index.js) whose auth
    parameter is not 'secret' is answered 403 'Not authorized' and leaves
    the world otherwise as it was: no query is sent, no connection taken,
    the database untouched. *)
Theorem unauthorized_rejected_without_queries (req : Request) (w : W) :
  authorized req = false ->
  serve (match_new req) w = answer w not_authorized
  /\ serve (player_new req) w = answer w not_authorized
  /\ serve (index_match_new req) w = answer w not_authorized
  /\ serve (index_player_new req) w = answer w not_authorized.
Proof.
  intros Hauth. repeat split; apply serve_authorize_refused; assumption.
Qed.

Lemma match_new_bind_accepted (req : Request) (w : W) :
  binding_ok req = true ->
  exists players winner,
    JSON_parse (qparam_to_string (q_players req)) = Some players
    /\ validateNewMatchData players = true
    /\ parseInt (qparam_to_string (q_winner req)) = Some winner
    /\ 0 <= winner
    /\ match_new_bind req w = (Ok (Some (players, winner)), w).
Proof.
  unfold binding_ok, match_new_bind, try_catch, bind, json_parse.
  intros Hok.
  destruct (JSON_parse _) as [players|]; [|discriminate].
  apply andb_prop in Hok. destruct Hok as [Hv Hw].
  apply negb_true_iff in Hw.
  destruct (parseInt _) as [winner|] eqn:Hp; [|discriminate].
  exists players, winner. cbn. rewrite Hv, Hw. cbn.
  unfold nan_or_negative in Hw. apply Z.ltb_ge in Hw.
  repeat split; assumption.
Qed.

(** The handler of src/match.js on parameters that do not pass the
    checks: an answer 400 and nothing else. *)
Lemma match_new_handler_refuses (req : Request) (w : W) :
  binding_ok req = false ->
  exists text,
    (text = "Invalid player data" \/ text = "Invalid winner ID")
    /\ serve (match_new_handler req) w = answer w (mkResponse 400 text true).
Proof.
  intros Hbad. unfold binding_ok in Hbad.
  unfold serve, match_new_handler, match_new_bind, try_catch, bind, json_parse.
  destruct (JSON_parse _) as [players|]; cbn.
  - destruct (validateNewMatchData players); cbn in *.
    + destruct (nan_or_negative _); [|discriminate].
      exists "Invalid winner ID". split; [right|]; reflexivity.
    + exists "Invalid player data". split; [left|]; reflexivity.
  - exists "Invalid player data". split; [left|]; reflexivity.
Qed.

Lemma index_match_new_handler_refuses (req : Request) (w : W) :
  index_binding_ok req = false ->
  exists text,
    (text = "Invalid player data format" \/ text = "Malformed data")
    /\ serve (index_match_new_handler req) w = answer w (mkResponse 400 text true).
Proof.
  intros Hbad. unfold index_binding_ok in Hbad.
  unfold serve, index_match_new_handler, index_match_new_bind,
    try_catch, bind, json_parse, validateOnePlayerId.
  destruct (JSON_parse _) as [players|]; cbn.
  - destruct (validate_match_new players); cbn in *.
    + destruct (nan_or_negative _); [|discriminate].
      exists "Malformed data". split; [right|]; reflexivity.
    + exists "Invalid player data format". split; [left|]; reflexivity.
  - exists "Malformed data". split; [right|]; reflexivity.
Qed.

(** C5. When the parameters of a match creation do not pass the checks
    (the payload does not parse or violates the schema, or the winner does
    not parse to a non-negative number), the handler answers 400 and stops
    there: no connection is taken, no query sent, the database untouched.
    This holds for the handler of src/match.js and for the one of the
    earlier src/index.js.  On the routes the handler is what runs once
    authorize has passed; whether it passes or not, the world is equally
    untouched. *)
Theorem invalid_parameters_rejected_without_effects (req : Request) (w : W) :
  (binding_ok req = false ->
   let w' := serve (match_new_handler req) w in
   status (res w') = 400 /\ ended (res w') = true
   /\ (body (res w') = "Invalid player data" \/ body (res w') = "Invalid winner ID")
   /\ taken w' = taken w /\ sent w' = sent w /\ db w' = db w
   /\ (authorized req = true -> serve (match_new req) w = w')
   /\ taken (serve (match_new req) w) = taken w
   /\ sent (serve (match_new req) w) = sent w
   /\ db (serve (match_new req) w) = db w)
  /\
  (index_binding_ok req = false ->
   let w' := serve (index_match_new_handler req) w in
   status (res w') = 400 /\ ended (res w') = true
   /\ (body (res w') = "Invalid player data format" \/ body (res w') = "Malformed data")
   /\ taken w' = taken w /\ sent w' = sent w /\ db w' = db w
   /\ (authorized req = true -> serve (index_match_new req) w = w')
   /\ taken (serve (index_match_new req) w) = taken w
   /\ sent (serve (index_match_new req) w) = sent w
   /\ db (serve (index_match_new req) w) = db w).
Proof.
  split; intros Hbad; cbv zeta.
  - destruct (match_new_handler_refuses req w Hbad) as (text & Htext & Hh).
    rewrite Hh. unfold match_new.
    destruct (authorized req) eqn:Hauth.
    + rewrite (serve_authorize_passed req _ w Hauth), Hh. cbn. tauto.
    + rewrite (serve_authorize_refused req _ w Hauth). cbn.
      repeat split; try tauto; discriminate.
  - destruct (index_match_new_handler_refuses req w Hbad) as (text & Htext & Hh).
    rewrite Hh. unfold index_match_new.
    destruct (authorized req) eqn:Hauth.
    + rewrite (serve_authorize_passed req _ w Hauth), Hh. cbn. tauto.
    + rewrite (serve_authorize_refused req _ w Hauth). cbn.
      repeat split; try tauto; discriminate.
Qed.

(** *** Stepping through the monad *)

Lemma query_run (q : Query) (w : W) :
  query q w
  = (match fst (exec pool q (db w)) with
     | Some r => Ok r
     | None => Throw DbError
     end,
     mkWorld (snd (exec pool q (db w))) (sent w ++ [q])
       (taken w) (given_back w) (res w)).
Proof.
  unfold query. destruct (exec pool q (db w)) as [[r|] d]; reflexivity.
Qed.

Lemma extends_refl (w : W) : extends w w [].
Proof.
  unfold extends. rewrite app_nil_r. repeat split.
Qed.

Lemma extends_trans (w1 w2 w3 : W) (n1 n2 : list Query) :
  extends w1 w2 n1 -> extends w2 w3 n2 -> extends w1 w3 (n1 ++ n2).
Proof.
  unfold extends. intros (S1 & R1 & T1 & G1) (S2 & R2 & T2 & G2).
  rewrite S2, S1, R2, R1, T2, T1, G2, G1, app_assoc. repeat split.
Qed.

Lemma query_extends (q : Query) (w : W) : extends w (snd (query q w)) [q].
Proof.
  rewrite query_run. unfold extends. cbn. repeat split.
Qed.

Lemma get_prop_defined (p : value) (k k' : string) (x : value) :
  get_prop p k = Some x -> exists y, get_prop p k' = Some y.
Proof.
  destruct p; cbn; intros H; try discriminate; eexists; reflexivity.
Qed.

(** One turn of the loop of src/match.js sends a prefix of the entry's
    statements, all of them when it completes, and nothing for an entry
    of an unknown player. *)
Lemma match_new_player_sends (winner : Z) (matchId player : value) (w : W) :
  exists new rest,
    extends w (snd (match_new_player winner matchId player w)) new
    /\ (if unknown_player player then []
        else entry_statements winner matchId player) = (new ++ rest)%list
    /\ (fst (match_new_player winner matchId player w) = Ok tt -> rest = []).
Proof.
  unfold match_new_player, unknown_player, entry_statements, entry_id, bind, prop.
  destruct (get_prop player "id") as [id|] eqn:Hid.
  - cbn. destruct (strict_eq_num id (-1)) eqn:Hskip.
    + exists [], []. cbn. split; [apply extends_refl|]. split; reflexivity.
    + destruct (get_prop_defined player "id" "kills" id Hid) as [kills Hk].
      destruct (get_prop_defined player "id" "deaths" id Hid) as [deaths Hd].
      rewrite Hk, Hd. cbn.
      rewrite query_run.
      destruct (fst (exec pool _ (db w))) as [r1|].
      * rewrite query_run.
        match goal with
        | |- context [fst (exec pool ?q ?d)] =>
            destruct (fst (exec pool q d)) as [r2|]
        end.
        -- eexists [_; _], []. cbn. split; [|split; [|reflexivity]].
           ++ unfold extends. cbn. rewrite <- app_assoc. repeat split.
           ++ destruct (strict_eq_num id (inject_Z winner)); reflexivity.
        -- eexists [_; _], []. cbn. split; [|split; [|discriminate]].
           ++ unfold extends. cbn. rewrite <- app_assoc. repeat split.
           ++ destruct (strict_eq_num id (inject_Z winner)); reflexivity.
      * eexists [_], [_]. cbn. split; [|split; [|discriminate]].
        -- unfold extends. cbn. repeat split.
        -- reflexivity.
  - cbn. replace (strict_eq_num JUndefined (-1)) with false by reflexivity.
    eexists [], _. cbn. split; [apply extends_refl|].
    split; [reflexivity|discriminate].
Qed.

Lemma match_new_loop_sends (winner : Z) (matchId : value) (items : list value) (w : W) :
  exists new rest,
    extends w (snd (for_of items (match_new_player winner matchId) w)) new
    /\ flat_map (entry_statements winner matchId)
         (filter (fun player => negb (unknown_player player)) items)
       = (new ++ rest)%list
    /\ (fst (for_of items (match_new_player winner matchId) w) = Ok tt -> rest = []).
Proof.
  revert w. induction items as [|player items IH]; intros w.
  - exists [], []. cbn. split; [apply extends_refl|]. split; reflexivity.
  - cbn [for_of filter]. unfold bind.
    destruct (match_new_player_sends winner matchId player w)
      as (n1 & r1 & E1 & L1 & D1).
    destruct (match_new_player winner matchId player w) as [[[]|e] w1]; cbn in *.
    + specialize (D1 eq_refl). subst r1. rewrite app_nil_r in L1.
      destruct (IH w1) as (n2 & r2 & E2 & L2 & D2).
      exists (n1 ++ n2)%list, r2.
      split; [eapply extends_trans; eassumption|].
      split; [|assumption].
      destruct (unknown_player player); cbn [negb flat_map].
      * subst n1. cbn. assumption.
      * rewrite L2, L1, app_assoc. reflexivity.
    + destruct (unknown_player player); cbn [negb flat_map].
      * exists n1, (r1 ++ flat_map (entry_statements winner matchId)
                     (filter (fun player => negb (unknown_player player)) items))%list.
        split; [assumption|]. split; [|discriminate].
        destruct n1; [|discriminate]. destruct r1; [|discriminate]. reflexivity.
      * exists n1, (r1 ++ flat_map (entry_statements winner matchId)
                     (filter (fun player => negb (unknown_player player)) items))%list.
        split; [assumption|]. split; [|discriminate].
        rewrite L1, app_assoc. reflexivity.
Qed.

Lemma validated_is_array (players : value) :
  validateNewMatchData players = true -> exists items, players = JArr items.
Proof.
  intros H. destruct players; try (cbv in H; discriminate).
  eexists. reflexivity.
Qed.

(** What the second try block of src/match.js sends: a prefix of
    [match_new_statements], the whole of it when the block completes. *)
Lemma match_new_transaction_sends (winner : Z) (items : list value) (w : W) :
  exists matchId new rest,
    extends (answer w (res w)) (answer (snd (match_new_transaction (JArr items) winner w)) (res w)) new
    /\ match_new_statements winner matchId items = (new ++ rest)%list
    /\ match fst (match_new_transaction (JArr items) winner w) with
       | Ok _ =>
           rest = []
           /\ res (snd (match_new_transaction (JArr items) winner w))
              = mkResponse (status (res w))
                  (body (res w) ++ "Match ID: " ++ to_string matchId)
                  (ended (res w))
       | Throw _ =>
           res (snd (match_new_transaction (JArr items) winner w)) = res w
       end.
Proof.
  unfold match_new_transaction, match_new_statements, bind.
  rewrite query_run.
  destruct (fst (exec pool (mkQuery "BEGIN" []) (db w))) as [r0|]; cbn [fst snd].
  2: { exists JUndefined. eexists [_], _. cbn. split; [|split; reflexivity].
       unfold extends. cbn. repeat split. }
  rewrite query_run. cbn [db sent taken given_back res].
  match goal with
  | |- context [fst (exec pool ?q ?d)] => destruct (fst (exec pool q d)) as [r1|]
  end; cbn [fst snd].
  2: { exists JUndefined. eexists [_; _], _. cbn. split; [|split; reflexivity].
       unfold extends. cbn. rewrite <- app_assoc. repeat split. }
  unfold row0. destruct (rows r1) as [|fields more]; cbn [fst snd].
  { exists JUndefined. eexists [_; _], _. cbn. split; [|split; reflexivity].
    unfold extends. cbn. rewrite <- app_assoc. repeat split. }
  cbn [iterate ret].
  match goal with
  | |- context [for_of items ?body ?w1] =>
      destruct (match_new_loop_sends winner (field fields "id") items w1)
        as (n & r & E & L & D);
      destruct (for_of items body w1) as [[[]|e] w2]
  end; cbn [fst snd] in *.
  - specialize (D eq_refl). subst r. rewrite app_nil_r in L.
    destruct E as (S2 & R2 & T2 & G2). cbn in S2, R2, T2, G2.
    rewrite query_run, S2, R2, T2, G2.
    destruct (fst (exec pool (mkQuery "COMMIT" []) (db w2))) as [r3|]; cbn [fst snd].
    + exists (field fields "id"),
        ([mkQuery "BEGIN" [];
          mkQuery "INSERT INTO matches (winner) VALUES ($1) RETURNING id" [num winner]]
         ++ n ++ [mkQuery "COMMIT" []])%list, [].
      split; [|split; [|split; reflexivity]].
      * unfold extends. cbn. repeat split.
        rewrite <- !app_assoc. cbn. reflexivity.
      * rewrite <- L, app_nil_r. reflexivity.
    + exists (field fields "id"),
        ([mkQuery "BEGIN" [];
          mkQuery "INSERT INTO matches (winner) VALUES ($1) RETURNING id" [num winner]]
         ++ n ++ [mkQuery "COMMIT" []])%list, [].
      split; [|split; [|reflexivity]].
      * unfold extends. cbn. repeat split.
        rewrite <- !app_assoc. cbn. reflexivity.
      * rewrite <- L, app_nil_r. reflexivity.
  - destruct E as (S2 & R2 & T2 & G2). cbn in S2, R2, T2, G2.
    exists (field fields "id"), ([mkQuery "BEGIN" [];
      mkQuery "INSERT INTO matches (winner) VALUES ($1) RETURNING id" [num winner]] ++ n)%list,
      (r ++ [mkQuery "COMMIT" []])%list.
    split; [|split; [|assumption]].
    + unfold extends. cbn. rewrite S2, T2, G2, <- !app_assoc. repeat split.
    + rewrite L, <- !app_assoc. reflexivity.
Qed.

Lemma append_empty_r (s : string) : s ++ EmptyString = s.
Proof.
  induction s as [|c s IH]; [reflexivity|].
  change (String c (s ++ EmptyString) = String c s). rewrite IH. reflexivity.
Qed.

Lemma append_assoc (a b c : string) : (a ++ b) ++ c = a ++ (b ++ c).
Proof.
  induction a as [|x a IH]; [reflexivity|].
  change (String x ((a ++ b) ++ c) = String x (a ++ (b ++ c))).
  rewrite IH. reflexivity.
Qed.

(** An accepted invocation of the handler of src/match.js: either the
    pool hands out no connection and nothing happens, or the transaction
    block runs and the handler answers 200 with the match id after all its
    statements, or 500 after a prefix of them. *)
Lemma match_new_handler_accepted (req : Request) (w : W)
    (items : list value) (winner : Z) :
  binding_ok req = true ->
  JSON_parse (qparam_to_string (q_players req)) = Some (JArr items) ->
  parseInt (qparam_to_string (q_winner req)) = Some winner ->
  exists matchId new rest,
    sent (serve (match_new_handler req) w) = (sent w ++ new)%list
    /\ match_new_statements winner matchId items = (new ++ rest)%list
    /\ taken (serve (match_new_handler req) w) = S (taken w)
    /\ (res (serve (match_new_handler req) w) = fresh_response /\ new = []
        \/ res (serve (match_new_handler req) w)
           = mkResponse 200 ("Match ID: " ++ to_string matchId) true /\ rest = []
        \/ res (serve (match_new_handler req) w)
           = mkResponse 500 "Match creation failed" true).
Proof.
  intros Hok Hparse Hwinner.
  unfold serve, match_new_handler, bind.
  match goal with
  | |- context [match_new_bind req ?w0] =>
      destruct (match_new_bind_accepted req w0 Hok)
        as (players & winner' & Hp & _ & Hw & _ & Hbind)
  end.
  rewrite Hbind. rewrite Hparse in Hp. injection Hp as <-.
  rewrite Hwinner in Hw. injection Hw as <-.
  unfold pool_connect. cbn [db sent taken given_back res].
  destruct (connect pool (db w)) as [d|].
  - unfold try_finally, try_catch, client_release, end_, set_res, bind, writeHead, write.
    match goal with
    | |- context [match_new_transaction (JArr items) winner ?w1] =>
        destruct (match_new_transaction_sends winner items w1)
          as (matchId & new & rest & E & L & R);
        destruct (match_new_transaction (JArr items) winner w1) as [[[]|e] w2]
    end; cbn [fst snd] in *.
    + destruct R as [-> R]. destruct E as (S2 & _ & T2 & _). cbn in S2, T2.
      exists matchId, new, []. cbn. rewrite R. cbn.
      rewrite append_empty_r.
      repeat split; try assumption.
      right. left. split; reflexivity.
    + destruct E as (S2 & _ & T2 & _). cbn in S2, T2.
      exists matchId, new, rest. cbn. rewrite R. cbn.
      repeat split; try assumption.
      right. right. reflexivity.
  - exists JUndefined, [], (match_new_statements winner JUndefined items). cbn.
    rewrite app_nil_r. repeat split. left. split; reflexivity.
Qed.

(** C4 (as the code has it).  On the match-creation route authorize runs
    first: an unauthorized invocation is answered 403 'Not authorized'
    whatever its parameters are, and the answer is 400 exactly when the
    caller is authorized and the parameters do not pass the checks. *)
Theorem authorize_runs_before_binding (req : Request) (w : W) :
  (authorized req = false ->
   res (serve (match_new req) w) = not_authorized)
  /\ (status (res (serve (match_new req) w)) = 400
      <-> authorized req = true /\ binding_ok req = false).
Proof.
  split.
  - intros Hauth. unfold match_new.
    rewrite (serve_authorize_refused req _ w Hauth). reflexivity.
  - unfold match_new. destruct (authorized req) eqn:Hauth.
    + rewrite (serve_authorize_passed req _ w Hauth).
      destruct (binding_ok req) eqn:Hok.
      * split; [|intros [_ H]; discriminate].
        intros Hstatus. exfalso.
        destruct (match_new_bind_accepted req w Hok)
          as (players & winner & Hp & Hv & Hw & _ & _).
        destruct (validated_is_array players Hv) as [items ->].
        destruct (match_new_handler_accepted req w items winner Hok Hp Hw)
          as (matchId & new & rest & _ & _ & _ & [[R _]|[[R _]|R]]);
          rewrite R in Hstatus; discriminate.
      * split; [intros _; split; reflexivity|intros _].
        destruct (match_new_handler_refuses req w Hok) as (text & _ & Hh).
        rewrite Hh. reflexivity.
    + rewrite (serve_authorize_refused req _ w Hauth). cbn.
      split; [discriminate|intros [H _]; discriminate].
Qed.



(** *** The two player-id validators *)

(** The answer of the validatePlayerId middleware to an id it refuses. *)
Lemma validatePlayerId_cases (req : Request) (next : M unit) :
  validatePlayerId req next
  = if nan_or_not_positive (parseInt (player_id req))
    then bind (writeHead 400) (fun _ => end_ "Invalid player ID.")
    else next.
Proof. reflexivity. Qed.

(** C9 (as the code has it).  validatePlayerId passes on exactly the ids
    that validateOnePlayerId accepts with a value other than 0: when
    validateOnePlayerId throws, the middleware answers 400; when it
    returns 0, the middleware answers 400 as well; when it returns another
    number, the middleware calls next. *)
Theorem validators_differ_exactly_at_zero (req : Request) (next : M unit) (w : W) :
  match fst (validateOnePlayerId (player_id req) w) with
  | Ok n =>
      0 <= n
      /\ validatePlayerId req next w
         = if n =? 0
           then bind (writeHead 400) (fun _ => end_ "Invalid player ID.") w
           else next w
  | Throw _ =>
      validatePlayerId req next w
      = bind (writeHead 400) (fun _ => end_ "Invalid player ID.") w
  end.
Proof.
  rewrite validatePlayerId_cases. unfold validateOnePlayerId.
  destruct (parseInt (player_id req)) as [n|]; unfold nan_or_negative, nan_or_not_positive.
  - destruct (n <? 0) eqn:Hneg; cbn.
    + apply Z.ltb_lt in Hneg.
      replace (n <=? 0) with true by (symmetry; apply Z.leb_le; lia).
      reflexivity.
    + apply Z.ltb_ge in Hneg. split; [assumption|].
      destruct (n =? 0) eqn:Hz.
      * apply Z.eqb_eq in Hz.
        replace (n <=? 0) with true by (symmetry; apply Z.leb_le; lia).
        reflexivity.
      * apply Z.eqb_neq in Hz.
        replace (n <=? 0) with false by (symmetry; apply Z.leb_gt; lia).
        reflexivity.
  - reflexivity.
Qed.

(** *** The match list *)

Lemma length_append (a b : string) :
  String.length (a ++ b) = (String.length a + String.length b)%nat.
Proof.
  induction a as [|c a IH]; [reflexivity|].
  change (S (String.length (a ++ b)) = S (String.length a + String.length b)).
  rewrite IH. reflexivity.
Qed.

Lemma substring_prefix (a b : string) :
  substring 0 (String.length a) (a ++ b) = a.
Proof.
  induction a as [|c a IH].
  - destruct b; reflexivity.
  - change (String c (substring 0 (String.length a) (a ++ b)) = String c a).
    rewrite IH. reflexivity.
Qed.

(** Chopping the last character undoes appending one. *)
Lemma chop_append_comma (s : string) : chop (s ++ ",") = s.
Proof.
  unfold chop. rewrite length_append. cbn [String.length].
  replace (String.length s + 1 - 1)%nat with (String.length s) by lia.
  apply substring_prefix.
Qed.

(** The reduce of the handler leaves every item followed by a comma. *)
Lemma reduce_with_commas (ms : list value) (acc : string) :
  ms <> [] ->
  fold_left (fun a b => a ++ to_string b ++ ",") ms acc
  = acc ++ String.concat "," (map to_string ms) ++ ",".
Proof.
  revert acc. induction ms as [|m ms IH]; intros acc Hne; [contradiction|].
  cbn [fold_left map]. destruct ms as [|m' ms].
  - reflexivity.
  - rewrite IH by discriminate.
    change (String.concat "," (to_string m :: map to_string (m' :: ms)))
      with (to_string m ++ "," ++ String.concat "," (map to_string (m' :: ms))).
    rewrite !append_assoc. reflexivity.
Qed.

(** C8. For a player id that passes validateOnePlayerId and a query that
    answers, the match-list handler responds 'no matches found' when the
    result has no row, and otherwise the match ids of the rows, in result
    order, joined by single commas with no trailing comma. *)
Theorem match_list_is_comma_joined (req : Request) (w : W)
    (player : Z) (result : QResult) (d : DB pool) :
  parseInt (player_id req) = Some player ->
  0 <= player ->
  exec pool (mkQuery "SELECT match FROM player_matches WHERE player = $1"
               [num player]) (db w) = (Some result, d) ->
  res (serve (player_matches_handler req) w)
  = mkResponse 200
      (match rows result with
       | [] => "no matches found"
       | _ :: _ =>
           String.concat ","
             (map (fun r => to_string (field r "match")) (rows result))
       end)
      true.
Proof.
  intros Hid Hpos Hexec.
  unfold serve, player_matches_handler, try_catch, bind, validateOnePlayerId.
  rewrite Hid. unfold nan_or_negative.
  replace (player <? 0) with false by (symmetry; apply Z.ltb_ge; assumption).
  cbn [ret]. rewrite query_run. cbn [db sent taken given_back res].
  rewrite Hexec. cbn [fst snd]. unfold rowCount.
  destruct (rows result) as [|r rs] eqn:Hrows.
  - reflexivity.
  - cbn [length Nat.eqb]. unfold end_, set_res. cbn [snd res].
    rewrite reduce_with_commas by discriminate.
    change (EmptyString ++ ?x) with x.
    rewrite chop_append_comma, map_map. reflexivity.
Qed.

(** *** The score summary *)

(** C3 (as the code has it).  A division by zero is not an error: it
    yields NaN or an infinity.  For a player id that passes
    validateOnePlayerId and a query that answers with no row, the score
    summary responds 200 with 0 matches, 0 wins, 0 losses and the win
    percent NaN. *)
Theorem score_summary_without_matches (req : Request) (w : W)
    (player : Z) (d : DB pool) :
  parseInt (player_id req) = Some player ->
  0 <= player ->
  exec pool
    (mkQuery
       "SELECT winner FROM player_matches INNER JOIN matches ON player_matches.match = matches.id WHERE player = $1"
       [num player]) (db w) = (Some (mkResult []), d) ->
  (forall a, div a 0 = NaN \/ exists negative, div a 0 = Infinity negative)
  /\ res (serve (scores_all_handler req) w)
     = mkResponse 200
         ("matches: " ++ to_string (num 0) ++ newline
          ++ "wins: " ++ to_string (num 0) ++ newline
          ++ "losses: " ++ to_string (num 0) ++ newline
          ++ "win percent: NaN" ++ newline)
         true.
Proof.
  intros Hid Hpos Hexec. split.
  - intros a. unfold div. cbn. destruct (a =? 0); [left|right; eexists]; reflexivity.
  - unfold serve, scores_all_handler, try_catch, bind, validateOnePlayerId.
    rewrite Hid. unfold nan_or_negative.
    replace (player <? 0) with false by (symmetry; apply Z.ltb_ge; assumption).
    cbn [ret]. rewrite query_run. cbn [db sent taken given_back res].
    rewrite Hexec. cbn [fst snd]. unfold rowCount. cbn.
    rewrite append_empty_r, !append_assoc. reflexivity.
Qed.

End Generic.

(** ** Properties on the transactional model *)

Section Transactional.
Import JS.

Variable rejects : Pg.Store -> Query -> bool.
Variable parse : string -> option value.
Variable show : Q -> string.

Local Abbreviation rt := (transactional rejects parse show).
Local Abbreviation W := (@W rt).

(** The INSERT into player_matches that src/match.js sends for an entry
    of the payload. *)
Local Abbreviation insert_of player matchId :=
  (mkQuery
     "INSERT INTO player_matches (player, match, kills, deaths) VALUES ($1, $2, $3, $4)"
     [entry_id player; matchId; Ledger.entry_prop player "kills";
      Ledger.entry_prop player "deaths"]).


(** Inside a transaction, open or aborted, nothing but COMMIT changes the
    committed tables or ends the transaction. *)
Lemma exec_inside_transaction (q : Query) (st : Pg.State) :
  String.eqb (text q) "COMMIT" = false ->
  Pg.conn st <> Pg.Idle ->
  Pg.tables (Pg.committed (snd (Pg.exec rejects q st))) = Pg.tables (Pg.committed st)
  /\ Pg.conn (snd (Pg.exec rejects q st)) <> Pg.Idle.
Proof.
  intros Hq Hconn. unfold Pg.exec. rewrite Hq.
  destruct (String.eqb (text q) "BEGIN"); destruct (Pg.conn st) eqn:Hc;
    try contradiction; cbn; try (rewrite Hc); try (split; [reflexivity|discriminate]).
  destruct (Pg.statement rejects q work) as [[r s']|]; cbn;
    split; try reflexivity; discriminate.
Qed.

Lemma begin_on_idle (w : W) :
  Pg.conn (db w) = Pg.Idle ->
  query (mkQuery "BEGIN" []) w
  = (Ok (mkResult []),
     mkWorld (Pg.mkState (Pg.committed (db w)) (Pg.Open (Pg.committed (db w))))
       (sent w ++ [mkQuery "BEGIN" []]) (taken w) (given_back w) (res w)).
Proof.
  intros Hidle. rewrite query_run. cbn [db sent taken given_back res fst snd].
  change (exec pool) with (Pg.exec rejects).
  unfold Pg.exec. cbn [text String.eqb Ascii.eqb Bool.eqb].
  rewrite Hidle. reflexivity.
Qed.



(** *** src/match.js when the server refuses the row of a player *)








(** *** The first revision of src/index.js *)










End Transactional.

(** ** The handlers at work on concrete requests *)

Import JS.

Example two_players_recorded :
  @serve (Run.runtime Pg.lenient) (match_new Run.two_players_request) Run.world0
  = mkWorld
      (Pg.mkState
         (Pg.mkStore 2 3 [Pg.mkMatch 1 (Some 1%Q)]
            [Pg.mkPlayerMatch (Some 1%Q) (Some 1%Q) (Some 3%Q) (Some 1%Q);
             Pg.mkPlayerMatch (Some 2%Q) (Some 1%Q) (Some 0%Q) (Some 2%Q)]
            [Pg.mkPlayer 1 (JStr "p") JNull (Some 1%Q) (Some 1%Q) (Some 3%Q) (Some 1%Q);
             Pg.mkPlayer 2 (JStr "p") JNull (Some 1%Q) (Some 0%Q) (Some 0%Q) (Some 2%Q)])
         Pg.Idle)
      (match_new_statements 1 (num 1) [Run.entry 1 3 1; Run.entry 2 0 2])
      1 1 (mkResponse 200 "Match ID: 1" true).
Proof. vm_compute. reflexivity. Qed.

(** C1 at a concrete request: no auth parameter, valid parameters. *)
Lemma unauthorized_rejected_witness :
  authorized Run.anonymous_request = false
  /\ @serve (Run.runtime Pg.lenient) (match_new Run.anonymous_request) Run.world0
     = @answer (Run.runtime Pg.lenient) Run.world0 not_authorized
  /\ @serve (Run.runtime Pg.lenient) (player_new Run.anonymous_request) Run.world0
     = @answer (Run.runtime Pg.lenient) Run.world0 not_authorized.
Proof.
  split; [reflexivity|].
  destruct (@unauthorized_rejected_without_queries (Run.runtime Pg.lenient)
              Run.anonymous_request Run.world0 eq_refl) as (H1 & H2 & _).
  split; assumption.
Defined.

(** C4 fails on the code: a caller without the auth parameter who sends
    parameters that do not pass the checks is told 403 'Not authorized',
    not 400. *)
Lemma unauthorized_garbage_is_answered_403 :
  authorized Run.anonymous_garbage_request = false
  /\ @binding_ok (Run.runtime Pg.lenient) Run.anonymous_garbage_request = false
  /\ res (@serve (Run.runtime Pg.lenient)
            (match_new Run.anonymous_garbage_request) Run.world0)
     = mkResponse 403 "Not authorized" true
  /\ status (res (@serve (Run.runtime Pg.lenient)
                    (match_new Run.anonymous_garbage_request) Run.world0))
     <> 400.
Proof.
  repeat split; try reflexivity. vm_compute. discriminate.
Qed.

(** C4 as amended, at the same parameters sent without and with the auth
    parameter. *)
Lemma authorize_runs_before_binding_witness :
  res (@serve (Run.runtime Pg.lenient)
         (match_new Run.anonymous_garbage_request) Run.world0)
  = not_authorized
  /\ status (res (@serve (Run.runtime Pg.lenient)
                    (match_new Run.garbage_request) Run.world0))
     = 400.
Proof.
  split.
  - apply (proj1 (@authorize_runs_before_binding (Run.runtime Pg.lenient)
                    Run.anonymous_garbage_request Run.world0)).
    reflexivity.
  - apply (proj2 (@authorize_runs_before_binding (Run.runtime Pg.lenient)
                    Run.garbage_request Run.world0)).
    split; reflexivity.
Defined.

(** C5 at a concrete request: authorized, the payload is not JSON. *)
Lemma invalid_parameters_witness :
  @binding_ok (Run.runtime Pg.lenient) Run.garbage_request = false
  /\ status (res (@serve (Run.runtime Pg.lenient)
                    (match_new_handler Run.garbage_request) Run.world0)) = 400
  /\ taken (@serve (Run.runtime Pg.lenient)
              (match_new_handler Run.garbage_request) Run.world0) = 0%nat
  /\ sent (@serve (Run.runtime Pg.lenient)
             (match_new_handler Run.garbage_request) Run.world0) = [].
Proof.
  split; [reflexivity|].
  destruct (proj1 (@invalid_parameters_rejected_without_effects
                     (Run.runtime Pg.lenient) Run.garbage_request Run.world0)
              eq_refl) as (H1 & _ & _ & H2 & H3 & _).
  repeat split; assumption.
Defined.

Example unknown_player_leaves_no_trace :
  sent (@serve (Run.runtime Pg.lenient)
          (match_new Run.with_unknown_request) Run.world0)
  = [mkQuery "BEGIN" [];
     mkQuery "INSERT INTO matches (winner) VALUES ($1) RETURNING id" [num 2];
     mkQuery
       "INSERT INTO player_matches (player, match, kills, deaths) VALUES ($1, $2, $3, $4)"
       [num 2; num 1; num 0; num 2];
     mkQuery
       "UPDATE players SET matches = matches + 1, wins = wins + 1, kills = kills + $1, deaths = deaths + $2 WHERE id = $3"
       [num 0; num 2; num 2];
     mkQuery "COMMIT" []].
Proof. vm_compute. reflexivity. Qed.

(** C9 fails on the code: the two validators disagree on '0', which
    validateOnePlayerId accepts and validatePlayerId refuses. *)
Lemma validators_disagree_on_zero :
  @validateOnePlayerId (Run.runtime Pg.lenient) "0" Run.world0 = (Ok 0, Run.world0)
  /\ @serve (Run.runtime Pg.lenient)
       (validatePlayerId (Run.get "0") (write "next")) Run.world0
     = @answer (Run.runtime Pg.lenient) Run.world0 (mkResponse 400 "Invalid player ID." true)
  /\ @serve (Run.runtime Pg.lenient)
       (validatePlayerId (Run.get "1") (write "next")) Run.world0
     = @answer (Run.runtime Pg.lenient) Run.world0 (mkResponse 200 "next" false).
Proof. repeat split; reflexivity. Qed.

(** C8 at concrete requests: player 1 of [store1] played match 1; player
    2 of [store0] played none. *)
Lemma match_list_witness :
  res (@serve (Run.runtime Pg.lenient)
         (player_matches_handler (Run.get "1")) Run.world1)
  = mkResponse 200 "1" true.
Proof.
  exact (@match_list_is_comma_joined (Run.runtime Pg.lenient) (Run.get "1")
           Run.world1 1 (mkResult [Pg.row "match" (num 1)])
           (Pg.mkState Run.store1 Pg.Idle) eq_refl ltac:(lia) eq_refl).
Defined.

(** C3 fails on the code: the score summary of a player with no recorded
    match is a successful response that reports the win percent NaN. *)
Lemma score_summary_of_newcomer_succeeds :
  parseInt "2" = Some 2
  /\ Pg.player_matches Run.store0 = []
  /\ @serve (Run.runtime Pg.lenient) (scores_all_handler (Run.get "2")) Run.world0
     = mkWorld (Pg.mkState Run.store0 Pg.Idle)
         [mkQuery
            "SELECT winner FROM player_matches INNER JOIN matches ON player_matches.match = matches.id WHERE player = $1"
            [num 2]]
         0 0
         (mkResponse 200
            ("matches: 0" ++ newline ++ "wins: 0" ++ newline
             ++ "losses: 0" ++ newline ++ "win percent: NaN" ++ newline)
            true).
Proof. repeat split; vm_compute; reflexivity. Qed.

(** C3 as amended, at the same request. *)
Lemma score_summary_without_matches_witness :
  status (res (@serve (Run.runtime Pg.lenient)
                 (scores_all_handler (Run.get "2")) Run.world0)) = 200
  /\ div 0 0 = NaN.
Proof.
  destruct (@score_summary_without_matches (Run.runtime Pg.lenient) (Run.get "2")
              Run.world0 2 (Pg.mkState Run.store0 Pg.Idle)
              eq_refl ltac:(lia) eq_refl) as [Hdiv Hres].
  split.
  - rewrite Hres. reflexivity.
  - destruct (Hdiv 0) as [H|[negative H]]; [exact H|discriminate H].
Defined.



(** C6 fails on the code at an entry without kills and deaths: the
    schema accepts it, the handler sends NULL increments, and the kills
    and deaths of player 1, 0 before, are NULL afterwards. *)
Theorem entry_without_counts_is_accepted :
  validateNewMatchData Run.id_only = true
  /\ sent Run.after_id_only_match
     = [mkQuery "BEGIN" [];
        mkQuery "INSERT INTO matches (winner) VALUES ($1) RETURNING id" [num 1];
        mkQuery
          "INSERT INTO player_matches (player, match, kills, deaths) VALUES ($1, $2, $3, $4)"
          [num 1; num 1; JUndefined; JUndefined];
        mkQuery
          "UPDATE players SET matches = matches + 1, wins = wins + 1, kills = kills + $1, deaths = deaths + $2 WHERE id = $3"
          [JUndefined; JUndefined; num 1];
        mkQuery "COMMIT" []]
  /\ res Run.after_id_only_match = mkResponse 200 "Match ID: 1" true
  /\ Pg.players (Pg.committed (db Run.world0))
     = [Pg.mkPlayer 1 (JStr "p") JNull (Some 0%Q) (Some 0%Q) (Some 0%Q) (Some 0%Q);
        Pg.mkPlayer 2 (JStr "p") JNull (Some 0%Q) (Some 0%Q) (Some 0%Q) (Some 0%Q)]
  /\ Pg.players (Pg.committed (db Run.after_id_only_match))
     = [Pg.mkPlayer 1 (JStr "p") JNull (Some 1%Q) (Some 1%Q) None None;
        Pg.mkPlayer 2 (JStr "p") JNull (Some 0%Q) (Some 0%Q) (Some 0%Q) (Some 0%Q)].
Proof. repeat split; vm_compute; reflexivity. Qed.

(** With numeric counts that are not negative, the UPDATE of src/match.js
    keeps the counters of a player numeric and does not decrease them. *)
Lemma update_player_with_counts (with_win : bool) (kills deaths : Q)
    (id : Pg.sqlnum) (p : Pg.PlayerRow) (m w k d : Q) :
  Pg.p_matches p = Some m -> Pg.p_wins p = Some w ->
  Pg.p_kills p = Some k -> Pg.p_deaths p = Some d ->
  (0 <= kills)%Q -> (0 <= deaths)%Q ->
  exists m' w' k' d',
    Pg.p_matches (Pg.update_player with_win (Some kills) (Some deaths) id p) = Some m'
    /\ Pg.p_wins (Pg.update_player with_win (Some kills) (Some deaths) id p) = Some w'
    /\ Pg.p_kills (Pg.update_player with_win (Some kills) (Some deaths) id p) = Some k'
    /\ Pg.p_deaths (Pg.update_player with_win (Some kills) (Some deaths) id p) = Some d'
    /\ (m <= m')%Q /\ (w <= w')%Q /\ (k <= k')%Q /\ (d <= d')%Q.
Proof.
  intros Hm Hw Hk Hd Hkills Hdeaths. unfold Pg.update_player.
  destruct (Pg.matches_id (Pg.p_id p) id).
  - cbn. rewrite Hm, Hw, Hk, Hd. cbn.
    destruct with_win; cbn; do 4 eexists; repeat split; try reflexivity; lra.
  - exists m, w, k, d. repeat split; try assumption; lra.
Qed.

(** ** The Economy Store *)

(** C7. A debit of more than the balance fails with
    InsufficientBalanceError and the store after it is the store before
    it. *)
Theorem debit_beyond_balance_fails (s : Economy.Store) (owner type : string)
    (amount : Z) :
  Economy.getBalance s owner type < amount ->
  Economy.debit s owner type amount = (inl Economy.InsufficientBalanceError, s).
Proof.
  intros Hlt. unfold Economy.debit.
  replace (Economy.getBalance s owner type - amount <? 0) with true
    by (symmetry; apply Z.ltb_lt; lia).
  reflexivity.
Qed.

(** C7 at a concrete store: alice holds 5 gems and is debited 7. *)
Lemma debit_beyond_balance_witness :
  Economy.getBalance (Economy.credit Economy.empty "alice" "gems" 5) "alice" "gems" < 7
  /\ Economy.debit (Economy.credit Economy.empty "alice" "gems" 5) "alice" "gems" 7
     = (inl Economy.InsufficientBalanceError,
        Economy.credit Economy.empty "alice" "gems" 5).
Proof.
  split; [reflexivity|].
  apply debit_beyond_balance_fails. reflexivity.
Defined.

Example debit_within_balance :
  Economy.getBalance
    (snd (Economy.debit (Economy.credit Economy.empty "alice" "gems" 5)
            "alice" "gems" 3)) "alice" "gems" = 2.
Proof. reflexivity. Qed.

(** * Further properties of the handlers *)

(** ** For every database *)

Section Further.
Import JS.

Context {rt : Runtime}.
Variable JSON_stringify : list (list (string * value)) -> string.

(** *** src/match.js: the connection and the response *)

(** X1. The handler of src/match.js gives back every connection it takes
    and always finishes the response: when pool.connect() resolves, the
    invocation ends with as many releases as connections taken and an
    ended response; when the parameters pass the checks and
    pool.connect() is rejected, nothing is sent, nothing released and the
    request stays unanswered. *)
Theorem match_new_releases_what_it_takes (req : Request) (w : W) :
  (connect pool (db w) <> None ->
   (taken (serve (match_new_handler req) w) + given_back w
    = given_back (serve (match_new_handler req) w) + taken w)%nat
   /\ ended (res (serve (match_new_handler req) w)) = true)
  /\ (connect pool (db w) = None ->
      binding_ok req = true ->
      serve (match_new_handler req) w
      = mkWorld (db w) (sent w) (S (taken w)) (given_back w) fresh_response).
Proof.
  destruct (binding_ok req) eqn:Hok.
  - destruct (match_new_bind_accepted req
                (mkWorld (db w) (sent w) (taken w) (given_back w) fresh_response) Hok)
      as (players & winner & _ & Hv & _ & _ & Hbind).
    destruct (validated_is_array players Hv) as [items ->].
    unfold serve, match_new_handler, bind. rewrite Hbind.
    unfold pool_connect. cbn [db sent taken given_back res].
    destruct (connect pool (db w)) as [d|].
    + split; [intros _|discriminate].
      unfold try_finally, try_catch, client_release, end_, set_res, bind, writeHead, write.
      match goal with
      | |- context [match_new_transaction (JArr items) winner ?w1] =>
          destruct (match_new_transaction_sends winner items w1)
            as (matchId & new & rest & E & _ & _);
          destruct (match_new_transaction (JArr items) winner w1) as [[[]|e] w2]
      end; cbn [fst snd] in *;
        destruct E as (_ & _ & T2 & G2); cbn in T2, G2 |- *;
        rewrite T2, G2; (split; [lia|reflexivity]).
    + split; [intros H; contradiction H; reflexivity|]. reflexivity.
  - destruct (match_new_handler_refuses req w Hok) as (text & _ & Hh).
    rewrite Hh. cbn. split; [intros _; split; [lia|reflexivity]|discriminate].
Qed.

Lemma match_new_loop_null (winner : Z) (matchId : value) (items : list value) (w : W) :
  In JNull items ->
  exists e, fst (for_of items (match_new_player winner matchId) w) = Throw e.
Proof.
  revert w. induction items as [|player items IH]; intros w Hin; [contradiction|].
  cbn [for_of]. unfold bind.
  destruct (match_new_player winner matchId player w) as [[[]|e] w1] eqn:E1.
  - destruct Hin as [->|Hin].
    + unfold match_new_player, bind, prop in E1. cbn in E1. discriminate.
    + apply IH. exact Hin.
  - exists e. reflexivity.
Qed.

(** X2. The schema of src/match.js accepts a payload with a null entry,
    and the handler then fails on it: whenever a connection is handed
    out, such a request is answered 500 'Match creation failed', whatever
    the database does. *)
Theorem null_entry_is_answered_500 (req : Request) (w : W) (items : list value) :
  binding_ok req = true ->
  JSON_parse (qparam_to_string (q_players req)) = Some (JArr items) ->
  In JNull items ->
  connect pool (db w) <> None ->
  res (serve (match_new_handler req) w)
  = mkResponse 500 "Match creation failed" true.
Proof.
  intros Hok Hp Hnull Hconn.
  destruct (match_new_bind_accepted req
              (mkWorld (db w) (sent w) (taken w) (given_back w) fresh_response) Hok)
    as (players & winner & Hp' & _ & _ & _ & Hbind).
  rewrite Hp in Hp'. injection Hp' as <-.
  unfold serve, match_new_handler, bind. rewrite Hbind.
  unfold pool_connect. cbn [db sent taken given_back res].
  destruct (connect pool (db w)) as [d|]; [|contradiction Hconn; reflexivity].
  unfold try_finally, try_catch, client_release, end_, set_res, bind, writeHead, write.
  match goal with
  | |- context [match_new_transaction (JArr items) winner ?w1] =>
      destruct (match_new_transaction_sends winner items w1)
        as (matchId & new & rest & _ & _ & R);
      assert (Hthrow : exists e,
                fst (match_new_transaction (JArr items) winner w1) = Throw e)
  end.
  { unfold match_new_transaction, bind.
    match goal with
    | |- context [query ?q ?w1] => destruct (query q w1) as [[r0|e0] w2]
    end; [|eexists; reflexivity].
    match goal with
    | |- context [query ?q w2] => destruct (query q w2) as [[r1|e1] w3]
    end; [|eexists; reflexivity].
    unfold row0. destruct (rows r1) as [|fields more]; [eexists; reflexivity|].
    cbn [ret iterate].
    destruct (match_new_loop_null winner (field fields "id") items w3 Hnull)
      as [e He].
    destruct (for_of items _ w3) as [[[]|e2] w4]; cbn [fst] in He;
      [discriminate|eexists; reflexivity]. }
  destruct Hthrow as [e He].
  destruct (match_new_transaction (JArr items) winner _) as [[[]|e'] w2];
    cbn [fst snd] in *; [discriminate|].
  cbn. rewrite R. reflexivity.
Qed.

(** *** src/index.js, first revision: the checks of /match/new *)

Lemma validateOnePlayerId_run (idStr : string) (w : W) :
  validateOnePlayerId idStr w
  = (match parseInt idStr with
     | Some n => if n <? 0 then Throw (Thrown "invalid id") else Ok n
     | None => Throw (Thrown "invalid id")
     end, w).
Proof.
  unfold validateOnePlayerId, nan_or_negative.
  destruct (parseInt idStr) as [n|]; [|reflexivity].
  destruct (n <? 0); reflexivity.
Qed.

Lemma validatePlayerIds_parsed (ids : list string) (players : list Z) (w : W) :
  Forall2 (fun s n => parseInt s = Some n /\ 0 <= n) ids players ->
  map_m validateOnePlayerId ids w = (Ok players, w).
Proof.
  intros H. induction H as [|s n ids players [Hs Hn] _ IH]; [reflexivity|].
  cbn [map_m]. unfold bind. rewrite validateOnePlayerId_run, Hs.
  apply Z.ltb_ge in Hn. rewrite Hn, IH. reflexivity.
Qed.

Lemma validatePlayerIds_accepts (ids : list string) (w : W) :
  forallb (fun s => negb (nan_or_negative (parseInt s))) ids = true ->
  exists players,
    map_m validateOnePlayerId ids w = (Ok players, w)
    /\ length players = length ids
    /\ Forall (fun n => 0 <= n) players.
Proof.
  induction ids as [|s ids IH]; intros Hall.
  - exists []. repeat split. constructor.
  - cbn [forallb] in Hall. apply andb_prop in Hall. destruct Hall as [Hs Hall].
    destruct (IH Hall) as (players & Hrun & Hlen & Hpos).
    apply negb_true_iff in Hs. unfold nan_or_negative in Hs.
    destruct (parseInt s) as [n|] eqn:Hp; [|discriminate].
    exists (n :: players). cbn [map_m]. unfold bind.
    rewrite validateOnePlayerId_run, Hp, Hs, Hrun. cbn.
    rewrite Hlen. repeat split. constructor; [apply Z.ltb_ge; exact Hs|exact Hpos].
Qed.

Lemma validatePlayerIds_refuses (ids : list string) (w : W) :
  forallb (fun s => negb (nan_or_negative (parseInt s))) ids = false ->
  map_m validateOnePlayerId ids w = (Throw (Thrown "invalid id"), w).
Proof.
  induction ids as [|s ids IH]; intros Hall; [discriminate|].
  cbn [forallb] in Hall. cbn [map_m]. unfold bind.
  rewrite validateOnePlayerId_run.
  destruct (negb (nan_or_negative (parseInt s))) eqn:Hs.
  - apply negb_true_iff in Hs. unfold nan_or_negative in Hs.
    destruct (parseInt s) as [n|]; [|discriminate]. rewrite Hs.
    cbn in Hall. rewrite (IH Hall). reflexivity.
  - apply negb_false_iff in Hs. unfold nan_or_negative in Hs.
    destruct (parseInt s) as [n|]; [rewrite Hs|]; reflexivity.
Qed.

Lemma unawaited_loop_taken (match_id : value) (players : list Z) (w : W) :
  taken (snd (for_of players
                (fun player =>
                   query_unawaited
                     (mkQuery "INSERT INTO player_matches (player, match) VALUES ($1, $2)"
                        [num player; match_id])) w)) = taken w
  /\ fst (for_of players
            (fun player =>
               query_unawaited
                 (mkQuery "INSERT INTO player_matches (player, match) VALUES ($1, $2)"
                    [num player; match_id])) w) = Ok tt.
Proof.
  revert w. induction players as [|x l IH]; intros w; [split; reflexivity|].
  cbn [for_of]. unfold bind, query_unawaited.
  destruct (exec pool _ (db w)) as [o d']. cbn.
  match goal with
  | |- context [for_of l _ ?w1] => destruct (IH w1) as [Ht Hu]
  end.
  split; [exact Ht|exact Hu].
Qed.

Lemma first_match_new_transaction_taken (players : list Z) (winner : Z) (w : W) :
  taken (snd (first_match_new_transaction players winner w)) = taken w.
Proof.
  unfold first_match_new_transaction, bind.
  rewrite query_run. destruct (fst (exec pool _ _)); [|reflexivity].
  rewrite query_run. destruct (fst (exec pool _ _)) as [r1|]; [|reflexivity].
  unfold row0. destruct (rows r1) as [|fields more]; [reflexivity|].
  cbn [ret].
  match goal with
  | |- context [for_of players ?body ?w3] =>
      destruct (unawaited_loop_taken (field fields "id") players w3) as [Ht Hu];
      destruct (for_of players body w3) as [[[]|e] w4]
  end; cbn [fst snd] in *; [|discriminate].
  rewrite query_run. destruct (fst (exec pool _ _)); cbn; exact Ht.
Qed.

(** X3. The first revision of /match/new answers 'invalid id', with the
    status left at 200, and touches nothing when [p] is absent or given
    once (not an array), or when one of its elements or the winner does
    not parse to a non-negative number; in every other case it asks the
    pool for a connection. *)
Theorem first_match_new_checks_ids (req : Request) (w : W) :
  (first_binding_ok req = false ->
   serve (first_match_new req) w = answer w (mkResponse 200 "invalid id" true))
  /\ (first_binding_ok req = true ->
      taken (serve (first_match_new req) w) = S (taken w)).
Proof.
  unfold first_binding_ok, serve, first_match_new, try_catch, bind, validatePlayerIds.
  destruct (q_p req) as [|s|ids];
    try (split; [intros _; reflexivity|discriminate]).
  destruct (forallb _ ids) eqn:Hids.
  - match goal with
    | |- context [map_m validateOnePlayerId ids ?w0] =>
        destruct (validatePlayerIds_accepts ids w0 Hids) as (players & -> & _ & _)
    end.
    rewrite validateOnePlayerId_run. unfold nan_or_negative.
    destruct (parseInt (qparam_to_string (q_winner req))) as [n|];
      [destruct (n <? 0)|]; cbn [andb negb];
      try (split; [intros _; reflexivity|discriminate]).
    split; [discriminate|intros _].
    cbn [ret]. unfold pool_connect. cbn [db sent taken given_back res].
    destruct (connect pool (db w)) as [d|]; [|reflexivity].
    unfold try_finally, try_catch, bind, client_release, write, end_, set_res.
    match goal with
    | |- context [first_match_new_transaction players n ?w1] =>
        pose proof (first_match_new_transaction_taken players n w1) as Ht;
        destruct (first_match_new_transaction players n w1) as [[[]|e] w2]
    end; cbn in Ht |- *; exact Ht.
  - cbn [andb].
    match goal with
    | |- context [map_m validateOnePlayerId ids ?w0] =>
        rewrite (validatePlayerIds_refuses ids w0 Hids)
    end.
    split; [intros _; reflexivity|discriminate].
Qed.

(** *** src/index.js: the match list and the score summary *)

(** X4. The match list and the score summary answer 'invalid player id'
    (status 200) without a query when the id does not parse to a
    non-negative number; and when their SELECT is rejected, which no try
    block covers, the request is left unanswered. *)
Theorem list_and_scores_edges (req : Request) (w : W) :
  (nan_or_negative (parseInt (player_id req)) = true ->
   serve (player_matches_handler req) w
   = answer w (mkResponse 200 "invalid player id" true)
   /\ serve (scores_all_handler req) w
      = answer w (mkResponse 200 "invalid player id" true))
  /\ (forall player d,
        parseInt (player_id req) = Some player -> 0 <= player ->
        (exec pool (mkQuery "SELECT match FROM player_matches WHERE player = $1"
                      [num player]) (db w) = (None, d) ->
         serve (player_matches_handler req) w
         = mkWorld d
             (sent w ++ [mkQuery "SELECT match FROM player_matches WHERE player = $1"
                           [num player]])
             (taken w) (given_back w) fresh_response)
        /\ (exec pool
              (mkQuery
                 "SELECT winner FROM player_matches INNER JOIN matches ON player_matches.match = matches.id WHERE player = $1"
                 [num player]) (db w) = (None, d) ->
            serve (scores_all_handler req) w
            = mkWorld d
                (sent w ++ [mkQuery
                   "SELECT winner FROM player_matches INNER JOIN matches ON player_matches.match = matches.id WHERE player = $1"
                   [num player]])
                (taken w) (given_back w) fresh_response)).
Proof.
  split.
  - intros Hbad.
    unfold serve, player_matches_handler, scores_all_handler, try_catch, bind.
    rewrite !validateOnePlayerId_run. unfold nan_or_negative in Hbad.
    destruct (parseInt (player_id req)) as [n|]; [rewrite Hbad|]; split; reflexivity.
  - intros player d Hid Hpos.
    apply Z.ltb_ge in Hpos.
    split; intros Hexec;
      unfold serve, player_matches_handler, scores_all_handler, try_catch, bind;
      rewrite validateOnePlayerId_run, Hid, Hpos; cbn [ret];
      rewrite query_run; cbn [db sent taken given_back res];
      rewrite Hexec; reflexivity.
Qed.

Lemma count_wins_bounds (player : Z) (vs : list value) (acc : Z) :
  acc <= fold_left
           (fun total winner =>
              total + (if strict_eq_num winner (inject_Z player) then 1 else 0))
           vs acc
      <= acc + Z.of_nat (length vs).
Proof.
  revert acc. induction vs as [|v vs IH]; intros acc.
  - cbn. lia.
  - cbn [fold_left length]. specialize (IH (acc + (if strict_eq_num v (inject_Z player) then 1 else 0))).
    destruct (strict_eq_num v (inject_Z player)); lia.
Qed.

(** X5. In the score summary the wins counted are between 0 and the
    number of matches, so the losses reported are never negative; and
    with at least one match the win percent is the finite quotient
    wins / matches. *)
Theorem score_summary_counts (req : Request) (w : W)
    (player : Z) (result : QResult) (d : DB pool) :
  parseInt (player_id req) = Some player ->
  0 <= player ->
  exec pool
    (mkQuery
       "SELECT winner FROM player_matches INNER JOIN matches ON player_matches.match = matches.id WHERE player = $1"
       [num player]) (db w) = (Some result, d) ->
  0 <= count_wins player result <= Z.of_nat (rowCount result)
  /\ (rows result <> [] ->
      div (count_wins player result) (Z.of_nat (rowCount result))
      = Finite (inject_Z (count_wins player result)
                / inject_Z (Z.of_nat (rowCount result)))%Q)
  /\ res (serve (scores_all_handler req) w)
     = mkResponse 200
         ("matches: " ++ to_string (num (Z.of_nat (rowCount result))) ++ newline
          ++ "wins: " ++ to_string (num (count_wins player result)) ++ newline
          ++ "losses: "
          ++ to_string (num (Z.of_nat (rowCount result) - count_wins player result))
          ++ newline
          ++ "win percent: "
          ++ number_string (div (count_wins player result)
                              (Z.of_nat (rowCount result)))
          ++ newline)
         true.
Proof.
  intros Hid Hpos Hexec. split; [|split].
  - unfold count_wins, rowCount.
    pose proof (count_wins_bounds player
                  (map (fun r => field r "winner") (rows result)) 0) as H.
    rewrite length_map in H. lia.
  - intros Hne. unfold div, rowCount.
    destruct (rows result) as [|r rs]; [contradiction|]. reflexivity.
  - apply Z.ltb_ge in Hpos.
    unfold serve, scores_all_handler, try_catch, bind.
    rewrite validateOnePlayerId_run, Hid, Hpos. cbn [ret].
    rewrite query_run. cbn [db sent taken given_back res].
    rewrite Hexec. cbn [fst snd].
    unfold write, end_, set_res, bind, count_wins. cbn.
    rewrite append_empty_r, !append_assoc. reflexivity.
Qed.

(** *** The competitors routes *)

(** X6. The stats router is mounted behind validatePlayerId: for an id
    that does not parse to a positive number the competitors route
    answers 400 'Invalid player ID.' and sends no query; for every other
    id it sends exactly one SELECT, whose parameter is the path segment
    itself, a string, and answers '[]' for an empty result and the
    stringified rows otherwise. *)
Theorem stats_competitors_is_guarded (req : Request) (w : W) :
  (nan_or_not_positive (parseInt (player_id req)) = true ->
   serve (player_stats_competitors JSON_stringify req) w
   = answer w (mkResponse 400 "Invalid player ID." true))
  /\ (nan_or_not_positive (parseInt (player_id req)) = false ->
      sent (serve (player_stats_competitors JSON_stringify req) w)
      = (sent w
         ++ [mkQuery
               ("SELECT DISTINCT ON (p.id) p.id, p.name, p.matches, p.wins, p.kills, p.deaths FROM players p"
                ++ " JOIN player_matches pm1 ON pm1.player = p.id"
                ++ " JOIN player_matches pm2 ON pm1.match = pm2.match"
                ++ " WHERE pm2.player = $1")
               [JStr (player_id req)]])%list
      /\ forall result d,
           exec pool
             (mkQuery
                ("SELECT DISTINCT ON (p.id) p.id, p.name, p.matches, p.wins, p.kills, p.deaths FROM players p"
                 ++ " JOIN player_matches pm1 ON pm1.player = p.id"
                 ++ " JOIN player_matches pm2 ON pm1.match = pm2.match"
                 ++ " WHERE pm2.player = $1")
                [JStr (player_id req)]) (db w) = (Some result, d) ->
           res (serve (player_stats_competitors JSON_stringify req) w)
           = mkResponse 200
               (match rows result with
                | [] => "[]"
                | _ :: _ => JSON_stringify (rows result)
                end) true).
Proof.
  unfold player_stats_competitors. rewrite validatePlayerId_cases.
  split; intros Hid; rewrite Hid; [reflexivity|].
  unfold serve, stats_competitors, bind. rewrite query_run.
  cbn [db sent taken given_back res].
  split.
  - destruct (fst (exec pool _ (db w))) as [r|]; [|reflexivity].
    cbn [fst snd]. destruct (rowCount r =? 0)%nat; reflexivity.
  - intros result d Hexec. rewrite Hexec. cbn [fst snd]. unfold rowCount.
    destruct (rows result) as [|r rs]; reflexivity.
Qed.

(** X7. The competitors route of the earlier src/index.js answers 400 for
    an id that does not parse to a non-negative number but does not stop
    there: it still sends its SELECT, with an undefined parameter, and
    the answer stays the empty 400 whatever the query returns. *)
Theorem index_competitors_queries_after_400 (req : Request) (w : W) :
  nan_or_negative (parseInt (player_id req)) = true ->
  sent (serve (index_competitors JSON_stringify req) w)
  = (sent w
     ++ [mkQuery
           ("SELECT DISTINCT p.id, p.name, p.matches, p.wins, p.kills, p.deaths FROM players p"
            ++ " JOIN player_matches pm1 ON pm1.player = p.id"
            ++ " JOIN player_matches pm2 ON pm1.match = pm2.match"
            ++ " WHERE pm2.player = $1")
           [JUndefined]])%list
  /\ res (serve (index_competitors JSON_stringify req) w)
     = mkResponse 400 EmptyString true.
Proof.
  intros Hbad. unfold serve, index_competitors, try_catch, bind.
  rewrite validateOnePlayerId_run. unfold nan_or_negative in Hbad.
  assert (Hthrow : match parseInt (player_id req) with
                   | Some n => if n <? 0 then Throw (Thrown "invalid id") else Ok n
                   | None => Throw (Thrown "invalid id")
                   end = Throw (Thrown "invalid id")).
  { destruct (parseInt (player_id req)) as [n|]; [rewrite Hbad|]; reflexivity. }
  rewrite Hthrow. cbn [writeHead end_ set_res ret res db sent taken given_back].
  rewrite query_run. cbn [db sent taken given_back res].
  destruct (fst (exec pool _ (db w))) as [r|]; cbn [fst snd].
  - unfold end_again. destruct (rowCount r =? 0)%nat; split; reflexivity.
  - split; reflexivity.
Qed.

(** *** The payload schemas *)

Lemma number_min_spec (m : Q) (x : value) :
  Ajv.validate (Ajv.number_min m) x = true <-> exists q, x = JNum q /\ (m <= q)%Q.
Proof.
  unfold Ajv.number_min. cbn [Ajv.validate].
  destruct x; cbn; split;
    try (intros H; discriminate H);
    try (intros (q' & H & _); discriminate H).
  - rewrite ?andb_true_r. intros H. exists q. split; [reflexivity|].
    apply Qle_bool_iff. exact H.
  - intros (q' & [= <-] & H). rewrite ?andb_true_r. apply Qle_bool_iff. exact H.
Qed.

(** The schema of the items, with the minimum of the id left open. *)
Lemma entry_schema_spec (m : Q) (p : value) :
  Ajv.validate
    (Ajv.Schema None None None None
       [("id", Ajv.number_min m); ("kills", Ajv.number_min 0);
        ("deaths", Ajv.number_min 0)] None) p = true
  <-> forall fields, p = JObj fields ->
        (forall x, lookup "id" fields = Some x -> exists q, x = JNum q /\ (m <= q)%Q)
        /\ (forall x, lookup "kills" fields = Some x -> exists q, x = JNum q /\ (0 <= q)%Q)
        /\ (forall x, lookup "deaths" fields = Some x -> exists q, x = JNum q /\ (0 <= q)%Q).
Proof.
  destruct p as [| |b|q|s|l|fields];
    try (split; [intros _ fields' H; discriminate H|intros _; reflexivity]).
  cbn [Ajv.validate andb]. rewrite !andb_true_r.
  split.
  - intros H fields' [= <-].
    apply andb_prop in H. destruct H as [Hid H].
    apply andb_prop in H. destruct H as [Hkills Hdeaths].
    repeat split; intros x Hx; rewrite Hx in *; apply number_min_spec; assumption.
  - intros H. destruct (H fields eq_refl) as (Hid & Hkills & Hdeaths).
    apply andb_true_intro. split; [|apply andb_true_intro; split].
    + destruct (lookup "id" fields) as [x|]; [|reflexivity].
      apply number_min_spec, Hid. reflexivity.
    + destruct (lookup "kills" fields) as [x|]; [|reflexivity].
      apply number_min_spec, Hkills. reflexivity.
    + destruct (lookup "deaths" fields) as [x|]; [|reflexivity].
      apply number_min_spec, Hdeaths. reflexivity.
Qed.

Lemma payload_schema_spec (m : Q) (v : value) :
  Ajv.validate
    (Ajv.Schema (Some Ajv.TArray) (Some 1%nat) (Some 4%nat)
       (Some (Ajv.Schema None None None None
                [("id", Ajv.number_min m); ("kills", Ajv.number_min 0);
                 ("deaths", Ajv.number_min 0)] None))
       [] None) v = true
  <-> exists items,
        v = JArr items
        /\ (1 <= length items <= 4)%nat
        /\ forall fields, In (JObj fields) items ->
             (forall x, lookup "id" fields = Some x -> exists q, x = JNum q /\ (m <= q)%Q)
             /\ (forall x, lookup "kills" fields = Some x ->
                   exists q, x = JNum q /\ (0 <= q)%Q)
             /\ (forall x, lookup "deaths" fields = Some x ->
                   exists q, x = JNum q /\ (0 <= q)%Q).
Proof.
  destruct v as [| |b|q|s|items|fields];
    try (split; [intros H; discriminate H|intros (items' & H & _); discriminate H]).
  change (Ajv.validate _ (JArr items))
    with (true && (1 <=? length items)%nat && (length items <=? 4)%nat
          && forallb (Ajv.validate
                        (Ajv.Schema None None None None
                           [("id", Ajv.number_min m); ("kills", Ajv.number_min 0);
                            ("deaths", Ajv.number_min 0)] None)) items
          && true && true).
  rewrite !andb_true_r. cbn [andb].
  split.
  - intros H. apply andb_prop in H. destruct H as [H Hall].
    apply andb_prop in H. destruct H as [Hmin Hmax].
    apply Nat.leb_le in Hmin. apply Nat.leb_le in Hmax.
    exists items. split; [reflexivity|]. split; [lia|].
    intros fields Hin. rewrite forallb_forall in Hall.
    apply (proj1 (entry_schema_spec m (JObj fields)) (Hall _ Hin) fields eq_refl).
  - intros (items' & [= <-] & [Hmin Hmax] & Hall).
    apply andb_true_intro. split; [apply andb_true_intro; split|].
    + apply Nat.leb_le. exact Hmin.
    + apply Nat.leb_le. exact Hmax.
    + apply forallb_forall. intros p Hin. apply entry_schema_spec.
      intros fields ->. apply Hall. exact Hin.
Qed.

(** X8. What the schema of src/match.js accepts: exactly the arrays of 1
    to 4 items in which every item that is an object has, where it has
    them, a numeric id of at least -1 and numeric kills and deaths of at
    least 0.  Nothing is required of an item that is not an object, and
    no property is required of one that is. *)
Theorem validateNewMatchData_accepts (v : value) :
  validateNewMatchData v = true
  <-> exists items,
        v = JArr items
        /\ (1 <= length items <= 4)%nat
        /\ forall fields, In (JObj fields) items ->
             (forall x, lookup "id" fields = Some x ->
                exists q, x = JNum q /\ (-1 <= q)%Q)
             /\ (forall x, lookup "kills" fields = Some x ->
                   exists q, x = JNum q /\ (0 <= q)%Q)
             /\ (forall x, lookup "deaths" fields = Some x ->
                   exists q, x = JNum q /\ (0 <= q)%Q).
Proof. apply (payload_schema_spec (-1)). Qed.

(** X9. The schema of the earlier src/index.js differs from the one of
    src/match.js in the minimum of the id only (0 instead of -1): every
    payload it accepts is accepted by src/match.js, and a payload that
    only src/match.js accepts has an entry with an id below 0. *)
Theorem earlier_schema_is_stricter (v : value) :
  (validate_match_new v = true -> validateNewMatchData v = true)
  /\ (validateNewMatchData v = true -> validate_match_new v = false ->
      exists items fields q,
        v = JArr items /\ In (JObj fields) items
        /\ lookup "id" fields = Some (JNum q) /\ (-1 <= q)%Q /\ (q < 0)%Q).
Proof.
  split.
  - intros H. apply (payload_schema_spec (-1)).
    apply (payload_schema_spec 0) in H.
    destruct H as (items & -> & Hlen & Hall).
    exists items. split; [reflexivity|]. split; [exact Hlen|].
    intros fields Hin. destruct (Hall fields Hin) as (Hid & Hk & Hd).
    split; [|split; assumption].
    intros x Hx. destruct (Hid x Hx) as (q & -> & Hq).
    exists q. split; [reflexivity|]. lra.
  - intros Hnew Hold.
    apply (payload_schema_spec (-1)) in Hnew.
    destruct Hnew as (items & -> & Hlen & Hall).
    assert (Hex : exists p, In p items
                  /\ Ajv.validate
                       (Ajv.Schema None None None None
                          [("id", Ajv.number_min 0); ("kills", Ajv.number_min 0);
                           ("deaths", Ajv.number_min 0)] None) p = false).
    { change (validate_match_new (JArr items))
        with (true && (1 <=? length items)%nat && (length items <=? 4)%nat
              && forallb (Ajv.validate
                            (Ajv.Schema None None None None
                               [("id", Ajv.number_min 0); ("kills", Ajv.number_min 0);
                                ("deaths", Ajv.number_min 0)] None)) items
              && true && true) in Hold.
      rewrite !andb_true_r in Hold. cbn [andb] in Hold.
      replace (1 <=? length items)%nat with true in Hold
        by (symmetry; apply Nat.leb_le; lia).
      replace (length items <=? 4)%nat with true in Hold
        by (symmetry; apply Nat.leb_le; lia).
      cbn [andb] in Hold.
      clear Hall Hlen. induction items as [|p items IH]; [discriminate|].
      cbn [forallb] in Hold. apply andb_false_iff in Hold.
      destruct Hold as [Hp|Hrest].
      - exists p. split; [left; reflexivity|exact Hp].
      - destruct (IH Hrest) as (p' & Hin & Hp'). exists p'.
        split; [right; exact Hin|exact Hp']. }
    destruct Hex as (p & Hin & Hp).
    destruct p as [| |b|q|s|l|fields]; try discriminate Hp.
    destruct (Hall fields Hin) as (Hid & Hk & Hd).
    cbn [Ajv.validate andb] in Hp. rewrite !andb_true_r in Hp.
    destruct (lookup "id" fields) as [x|] eqn:Hx.
    + destruct (Hid x eq_refl) as (q & -> & Hq).
      exists items, fields, q. repeat split; try assumption.
      destruct (Qlt_le_dec q 0) as [Hlt|Hge]; [exact Hlt|exfalso].
      assert (Hidok : Ajv.validate (Ajv.number_min 0) (JNum q) = true)
        by (apply number_min_spec; exists q; split; [reflexivity|exact Hge]).
      rewrite Hidok in Hp. cbn [andb] in Hp.
      apply andb_false_iff in Hp. destruct Hp as [Hp|Hp].
      * destruct (lookup "kills" fields) as [y|]; [|discriminate].
        rewrite (proj2 (number_min_spec 0 y) (Hk y eq_refl)) in Hp. discriminate.
      * destruct (lookup "deaths" fields) as [y|]; [|discriminate].
        rewrite (proj2 (number_min_spec 0 y) (Hd y eq_refl)) in Hp. discriminate.
    + exfalso. cbn [andb] in Hp.
      apply andb_false_iff in Hp. destruct Hp as [Hp|Hp].
      * destruct (lookup "kills" fields) as [y|]; [|discriminate].
        rewrite (proj2 (number_min_spec 0 y) (Hk y eq_refl)) in Hp. discriminate.
      * destruct (lookup "deaths" fields) as [y|]; [|discriminate].
        rewrite (proj2 (number_min_spec 0 y) (Hd y eq_refl)) in Hp. discriminate.
Qed.

(** *** Decimal ids *)

Lemma read_decimal (d d' : Decimal.uint) :
  read_digits 10 (NilEmpty.string_of_uint d)
    (Some (Z.of_N (DecimalPos.Unsigned.of_lu d')))
  = Some (Z.of_N (DecimalPos.Unsigned.of_lu (Decimal.revapp d d'))).
Proof.
  revert d'. induction d as [|d IH|d IH|d IH|d IH|d IH|d IH|d IH|d IH|d IH|d IH];
    intros d'; [reflexivity|..];
    cbn [NilEmpty.string_of_uint read_digits Decimal.revapp];
    match goal with
    | |- context [digit_value ?c] =>
        let v := eval vm_compute in (digit_value c) in
        change (digit_value c) with v
    end;
    cbn [Z.ltb Z.compare Pos.compare Pos.compare_cont];
    rewrite <- IH; do 2 f_equal;
    rewrite (DecimalPos.Unsigned.of_lu_eqn (_ d'));
    cbn [DecimalPos.Unsigned.hd DecimalPos.Unsigned.tl]; lia.
Qed.

Lemma read_decimal_start (d : Decimal.uint) :
  d <> Decimal.Nil ->
  read_digits 10 (NilEmpty.string_of_uint d) None
  = Some (Z.of_N (Pos.of_uint d)).
Proof.
  intros Hd. rewrite DecimalPos.Unsigned.of_uint_alt. unfold Decimal.rev.
  rewrite <- read_decimal.
  destruct d; [contradiction|..]; reflexivity.
Qed.

Lemma parseInt_decimal (d : Decimal.uint) :
  d <> Decimal.Nil ->
  parse_integer (NilEmpty.string_of_uint d)
  = match read_digits 10 (NilEmpty.string_of_uint d) None with
    | Some n => Some n
    | None => None
    end.
Proof.
  intros Hd. unfold parse_integer.
  destruct d as [|d|d|d|d|d|d|d|d|d|d]; [contradiction|..]; try reflexivity.
  destruct d; reflexivity.
Qed.

Lemma parseInt_decimal_negative (d : Decimal.uint) :
  d <> Decimal.Nil ->
  parse_integer (String "-" (NilEmpty.string_of_uint d))
  = match read_digits 10 (NilEmpty.string_of_uint d) None with
    | Some n => Some (- n)
    | None => None
    end.
Proof.
  intros Hd. unfold parse_integer.
  destruct d as [|d|d|d|d|d|d|d|d|d|d]; [contradiction|..]; try reflexivity.
  destruct d; reflexivity.
Qed.

Lemma parse_integer_string_of_Z (n : Z) : parse_integer (string_of_Z n) = Some n.
Proof.
  unfold string_of_Z.
  rewrite <- (DecimalZ.of_to n) at 2.
  destruct n as [|p|p]; [reflexivity|..];
    cbn [Z.to_int NilZero.string_of_int Z.of_int];
    unfold NilZero.string_of_uint;
    pose proof (DecimalPos.Unsigned.to_uint_nonnil p) as Hnil;
    destruct (Pos.to_uint p) eqn:Hd; try contradiction;
    rewrite <- Hd in *.
  all: try (rewrite parseInt_decimal, read_decimal_start by exact Hnil; reflexivity).
  all: rewrite parseInt_decimal_negative, read_decimal_start by exact Hnil;
    unfold Z.of_uint; reflexivity.
Qed.

Lemma to_double_exact (n : Z) : exact_integer n -> to_double n = n.
Proof.
  unfold exact_integer, to_double. intros H.
  replace (Z.abs n <=? 9007199254740992) with true; [reflexivity|].
  symmetry. apply Z.leb_le. lia.
Qed.

Lemma parseInt_string_of_Z (n : Z) :
  exact_integer n -> parseInt (string_of_Z n) = Some n.
Proof.
  intros H. unfold parseInt.
  rewrite parse_integer_string_of_Z, (to_double_exact n H). reflexivity.
Qed.

(** X10. The decimal text of an integer that a JavaScript number holds
    exactly (up to 2^53 in absolute value) comes back from the validators
    as the integer: validateOnePlayerId returns n for the text of every
    such n that is not negative and throws 'invalid id' for the text of a
    negative one; validatePlayerId passes the request on for the text of
    every such positive n and answers 400 for 0 and below. *)
Theorem decimal_ids_round_trip (n : Z) (req : Request) (next : M unit) (w : W) :
  exact_integer n ->
  validateOnePlayerId (string_of_Z n) w
  = (if n <? 0 then Throw (Thrown "invalid id") else Ok n, w)
  /\ (player_id req = string_of_Z n ->
      validatePlayerId req next
      = if n <=? 0
        then bind (writeHead 400) (fun _ => end_ "Invalid player ID.")
        else next).
Proof.
  intros Hn. split.
  - rewrite validateOnePlayerId_run, (parseInt_string_of_Z n Hn).
    destruct (n <? 0); reflexivity.
  - intros Hid. rewrite validatePlayerId_cases, Hid, (parseInt_string_of_Z n Hn).
    reflexivity.
Qed.

(** *** The two revisions of match creation *)

Lemma for_of_ext {A} (l : list A) (f g : A -> M unit) :
  (forall x, In x l -> forall w, f x w = g x w) ->
  forall w, for_of l f w = for_of l g w.
Proof.
  induction l as [|x l IH]; intros H w; [reflexivity|].
  cbn [for_of]. unfold bind. rewrite (H x (or_introl eq_refl)).
  destruct (g x w) as [[u|e] w']; [|reflexivity].
  apply IH. intros y Hy. apply H. right. exact Hy.
Qed.

Lemma known_entry_steps_agree (winner : Z) (matchId player : value) (w : W) :
  (forall fields x, player = JObj fields -> lookup "id" fields = Some x ->
     exists q, x = JNum q /\ (0 <= q)%Q) ->
  match_new_player winner matchId player w
  = index_match_new_player winner matchId player w.
Proof.
  intros H. unfold match_new_player, index_match_new_player, bind, prop at 1 4.
  destruct player as [| |b|q|s|l|fields]; try reflexivity.
  cbn [get_prop ret]. unfold field.
  destruct (lookup "id" fields) as [x|] eqn:Hx; [|reflexivity].
  destruct (H fields x eq_refl Hx) as (q & -> & Hq).
  unfold strict_eq_num at 1.
  replace (Qeq_bool q (-1)) with false; [reflexivity|].
  symmetry. apply not_true_iff_false. intros Heq.
  apply Qeq_bool_iff in Heq. lra.
Qed.

Lemma index_match_new_bind_accepted (req : Request) (w : W) :
  index_binding_ok req = true ->
  exists items winner,
    binding_ok req = true
    /\ (forall fields x, In (JObj fields) items -> lookup "id" fields = Some x ->
          exists q, x = JNum q /\ (0 <= q)%Q)
    /\ index_match_new_bind req w = (Ok (Some (JArr items, winner)), w)
    /\ match_new_bind req w = (Ok (Some (JArr items, winner)), w).
Proof.
  unfold index_binding_ok, binding_ok. intros Hok.
  destruct (JSON_parse (qparam_to_string (q_players req))) as [players|] eqn:Hparse;
    [|discriminate].
  apply andb_prop in Hok. destruct Hok as [Hv Hw].
  assert (Hnew : validateNewMatchData players = true).
  { apply (payload_schema_spec (-1)).
    apply (payload_schema_spec 0) in Hv.
    destruct Hv as (items & -> & Hlen & Hall).
    exists items. split; [reflexivity|]. split; [exact Hlen|].
    intros fields Hin. destruct (Hall fields Hin) as (Hid & Hk & Hd).
    split; [|split; assumption].
    intros x Hx. destruct (Hid x Hx) as (q & -> & Hq).
    exists q. split; [reflexivity|]. lra. }
  pose proof Hv as Hv'. apply (payload_schema_spec 0) in Hv'.
  destruct Hv' as (items & -> & Hlen & Hall).
  pose proof Hw as Hw'. apply negb_true_iff in Hw'.
  destruct (parseInt (qparam_to_string (q_winner req))) as [winner|] eqn:Hp;
    [|discriminate].
  exists items, winner.
  split; [rewrite Hnew, Hw; reflexivity|].
  split; [intros fields x Hin Hx; exact (proj1 (Hall fields Hin) x Hx)|].
  split.
  - unfold index_match_new_bind, try_catch, bind, json_parse.
    rewrite Hparse. cbn [ret]. rewrite Hv. cbn [negb].
    rewrite validateOnePlayerId_run, Hp.
    unfold nan_or_negative in Hw'. rewrite Hw'. reflexivity.
  - unfold match_new_bind, try_catch, bind, json_parse.
    rewrite Hparse. cbn [ret]. rewrite Hnew, Hp, Hw'. reflexivity.
Qed.

(** X11. The handler of the earlier src/index.js and the one of
    src/match.js differ, for parameters the earlier one accepts, in the
    wording of the answer only.  Both invocations send the same statements
    and leave the same database, take and give back the same connections,
    and answer with the same status; the skip of the id -1 in src/match.js
    never applies, because the earlier schema admits no id below 0. *)
Theorem revisions_agree_on_accepted_payloads (req : Request) (w : W) :
  index_binding_ok req = true ->
  db (serve (index_match_new req) w) = db (serve (match_new req) w)
  /\ sent (serve (index_match_new req) w) = sent (serve (match_new req) w)
  /\ taken (serve (index_match_new req) w) = taken (serve (match_new req) w)
  /\ given_back (serve (index_match_new req) w)
     = given_back (serve (match_new req) w)
  /\ status (res (serve (index_match_new req) w))
     = status (res (serve (match_new req) w))
  /\ ended (res (serve (index_match_new req) w))
     = ended (res (serve (match_new req) w)).
Proof.
  intros Hok.
  enough (H : forall P : W -> W -> Prop,
             (forall a b, db a = db b -> sent a = sent b -> taken a = taken b ->
                given_back a = given_back b ->
                status (res a) = status (res b) ->
                ended (res a) = ended (res b) -> P a b) ->
             P (serve (index_match_new req) w) (serve (match_new req) w)).
  { apply H. intros a b H1 H2 H3 H4 H5 H6. repeat split; assumption. }
  intros P HP.
  unfold serve, index_match_new, match_new, authorize.
  destruct (authorized req); [|apply HP; reflexivity].
  unfold index_match_new_handler, match_new_handler, bind.
  destruct (index_match_new_bind_accepted req
              (mkWorld (db w) (sent w) (taken w) (given_back w) fresh_response) Hok)
    as (items & winner & _ & Hids & -> & ->).
  unfold pool_connect.
  cbn [db sent taken given_back res].
  destruct (connect pool (db w)) as [d|]; [|apply HP; reflexivity].
  unfold try_finally, try_catch, index_match_new_transaction,
    match_new_transaction, bind, iterate, ret.
  destruct (query (mkQuery "BEGIN" []) _) as [[r0|e0] w1];
    [|apply HP; reflexivity].
  destruct (query (mkQuery "INSERT INTO matches (winner) VALUES ($1) RETURNING id"
                     [num winner]) w1) as [[r1|e1] w2];
    [|apply HP; reflexivity].
  destruct (row0 r1 "id" w2) as [[mid|e2] w3]; [|apply HP; reflexivity].
  rewrite (for_of_ext items (match_new_player winner mid)
             (index_match_new_player winner mid)).
  - destruct (for_of items (index_match_new_player winner mid) w3)
      as [[u|e3] w4]; [|apply HP; reflexivity].
    destruct (query (mkQuery "COMMIT" []) w4) as [[r2|e4] w5];
      apply HP; reflexivity.
  - intros p Hin w'. apply known_entry_steps_agree.
    intros fields x -> Hx. exact (Hids fields x Hin Hx).
Qed.

End Further.

(** ** On the transactional model, with a server that refuses nothing *)

Section Recorded.
Import JS.

Variable parse : string -> option value.
Variable show : Q -> string.

Local Abbreviation rt := (transactional Pg.lenient parse show).
Local Abbreviation W := (@W rt).

(** The text of the UPDATE as src/match.js builds it. *)
Lemma update_text (with_win : bool) :
  (if with_win
   then "UPDATE players SET matches = matches + 1" ++ ", wins = wins + 1"
   else "UPDATE players SET matches = matches + 1")
  ++ ", kills = kills + $1, deaths = deaths + $2 WHERE id = $3"
  = if with_win
    then "UPDATE players SET matches = matches + 1, wins = wins + 1, kills = kills + $1, deaths = deaths + $2 WHERE id = $3"
    else "UPDATE players SET matches = matches + 1, kills = kills + $1, deaths = deaths + $2 WHERE id = $3".
Proof. destruct with_win; reflexivity. Qed.

(** The properties of an entry the schema has seen are numbers or
    undefined, and reach the database as such. *)
Lemma entry_prop_bound (m : Q) (player : value) (k : string) :
  Ajv.validate
    (Ajv.Schema None None None None
       [("id", Ajv.number_min m); ("kills", Ajv.number_min 0);
        ("deaths", Ajv.number_min 0)] None) player = true ->
  player <> JNull -> player <> JUndefined ->
  k = "id" \/ k = "kills" \/ k = "deaths" ->
  get_prop player k = Some (Ledger.entry_prop player k)
  /\ Pg.as_num (Ledger.entry_prop player k)
     = Some (Ledger.sql_of (Ledger.entry_prop player k)).
Proof.
  intros Hv Hnull Hundef Hk. unfold Ledger.entry_prop.
  destruct player as [| |b|q|s|l|fields]; try contradiction;
    try (cbn; split; reflexivity).
  cbn [get_prop]. split; [reflexivity|].
  destruct (proj1 (entry_schema_spec m (JObj fields)) Hv fields eq_refl)
    as (Hid & Hkills & Hdeaths).
  unfold field.
  destruct Hk as [ -> | [ -> | -> ] ];
    match goal with
    | |- context [lookup ?k fields] => destruct (lookup k fields) as [x|] eqn:Hx
    end; try reflexivity.
  - destruct (Hid x eq_refl) as (q & -> & _). reflexivity.
  - destruct (Hkills x eq_refl) as (q & -> & _). reflexivity.
  - destruct (Hdeaths x eq_refl) as (q & -> & _). reflexivity.
Qed.

Lemma exec_insert_player_match (c work : Pg.Store) (id kills deaths : value)
    (mid : Z) (a k d : Pg.sqlnum) :
  Pg.as_num id = Some a -> Pg.as_num kills = Some k -> Pg.as_num deaths = Some d ->
  Pg.exec Pg.lenient
    (mkQuery
       "INSERT INTO player_matches (player, match, kills, deaths) VALUES ($1, $2, $3, $4)"
       [id; num mid; kills; deaths])
    (Pg.mkState c (Pg.Open work))
  = (Some (mkResult []),
     Pg.mkState c
       (Pg.Open
          (Pg.mkStore (Pg.next_match_id work) (Pg.next_player_id work)
             (Pg.matches work)
             (Pg.player_matches work
              ++ [Pg.mkPlayerMatch a (Some (inject_Z mid)) k d])
             (Pg.players work)))).
Proof.
  intros Ha Hk Hd. unfold Pg.exec, Pg.statement, Pg.lenient, Pg.apply.
  cbn [text params String.eqb Ascii.eqb Bool.eqb Pg.conn Pg.committed].
  rewrite Ha, Hk, Hd. reflexivity.
Qed.

Lemma exec_update_player (c work : Pg.Store) (with_win : bool)
    (id kills deaths : value) (a k d : Pg.sqlnum) :
  Pg.as_num id = Some a -> Pg.as_num kills = Some k -> Pg.as_num deaths = Some d ->
  Pg.exec Pg.lenient
    (mkQuery
       (if with_win
        then "UPDATE players SET matches = matches + 1, wins = wins + 1, kills = kills + $1, deaths = deaths + $2 WHERE id = $3"
        else "UPDATE players SET matches = matches + 1, kills = kills + $1, deaths = deaths + $2 WHERE id = $3")
       [kills; deaths; id])
    (Pg.mkState c (Pg.Open work))
  = (Some (mkResult []),
     Pg.mkState c
       (Pg.Open
          (Pg.mkStore (Pg.next_match_id work) (Pg.next_player_id work)
             (Pg.matches work) (Pg.player_matches work)
             (map (Pg.update_player with_win k d a) (Pg.players work))))).
Proof.
  intros Ha Hk Hd. unfold Pg.exec, Pg.statement, Pg.lenient, Pg.apply.
  destruct with_win;
    cbn [text params String.eqb Ascii.eqb Bool.eqb orb Pg.conn Pg.committed];
    rewrite Ha, Hk, Hd; reflexivity.
Qed.

(** One turn of the loop of src/match.js inside an open transaction. *)
Lemma match_new_player_records (winner mid : Z) (player : value) (w : W)
    (work : Pg.Store) :
  Ajv.validate
    (Ajv.Schema None None None None
       [("id", Ajv.number_min (-1)); ("kills", Ajv.number_min 0);
        ("deaths", Ajv.number_min 0)] None) player = true ->
  player <> JNull -> player <> JUndefined ->
  Pg.conn (db w) = Pg.Open work ->
  exists w',
    match_new_player winner (num mid) player w = (Ok tt, w')
    /\ db w' = Pg.mkState (Pg.committed (db w))
                 (Pg.Open (Ledger.record_entry winner mid work player))
    /\ res w' = res w.
Proof.
  intros Hv Hnull Hundef Hopen.
  destruct (entry_prop_bound (-1) player "id" Hv Hnull Hundef (or_introl eq_refl))
    as [Gid Aid].
  destruct (entry_prop_bound (-1) player "kills" Hv Hnull Hundef
              (or_intror (or_introl eq_refl))) as [Gk Ak].
  destruct (entry_prop_bound (-1) player "deaths" Hv Hnull Hundef
              (or_intror (or_intror eq_refl))) as [Gd Ad].
  assert (Hdb : db w = Pg.mkState (Pg.committed (db w)) (Pg.Open work)).
  { destruct (db w) as [c t]. cbn in Hopen |- *. rewrite Hopen. reflexivity. }
  unfold match_new_player, bind, prop, Ledger.record_entry, unknown_player, entry_id.
  rewrite Gid, Gk, Gd. cbn [ret].
  change (match Some (Ledger.entry_prop player "id") with
          | Some x => x | None => JUndefined end)
    with (Ledger.entry_prop player "id").
  destruct (strict_eq_num (Ledger.entry_prop player "id") (-1)).
  - exists w. repeat split. exact Hdb.
  - rewrite update_text, !query_run. cbn [db sent taken given_back res].
    change (exec pool) with (Pg.exec Pg.lenient).
    rewrite Hdb, (exec_insert_player_match _ _ _ _ _ _ _ _ _ Aid Ak Ad).
    cbn [fst snd].
    rewrite (exec_update_player _ _ _ _ _ _ _ _ _ Aid Ak Ad).
    cbn [fst snd ret]. eexists. repeat split.
Qed.

Lemma match_new_loop_records (winner mid : Z) (items : list value) (w : W)
    (work : Pg.Store) :
  (forall player, In player items ->
     Ajv.validate
       (Ajv.Schema None None None None
          [("id", Ajv.number_min (-1)); ("kills", Ajv.number_min 0);
           ("deaths", Ajv.number_min 0)] None) player = true
     /\ player <> JNull /\ player <> JUndefined) ->
  Pg.conn (db w) = Pg.Open work ->
  exists w',
    for_of items (match_new_player winner (num mid)) w = (Ok tt, w')
    /\ db w' = Pg.mkState (Pg.committed (db w))
                 (Pg.Open (fold_left (Ledger.record_entry winner mid) items work))
    /\ res w' = res w.
Proof.
  revert w work. induction items as [|player items IH]; intros w work Hall Hopen.
  - exists w. repeat split. destruct (db w) as [c t]. cbn in Hopen |- *.
    rewrite Hopen. reflexivity.
  - destruct (Hall player (or_introl eq_refl)) as (Hv & Hnull & Hundef).
    destruct (match_new_player_records winner mid player w work Hv Hnull Hundef Hopen)
      as (w1 & E1 & D1 & R1).
    assert (Hopen1 : Pg.conn (db w1)
                     = Pg.Open (Ledger.record_entry winner mid work player))
      by (rewrite D1; reflexivity).
    destruct (IH w1 _ (fun p Hp => Hall p (or_intror Hp)) Hopen1)
      as (w2 & E2 & D2 & R2).
    exists w2. cbn [for_of fold_left]. unfold bind. rewrite E1.
    split; [exact E2|]. split; [|rewrite R2; exact R1].
    rewrite D2, D1. reflexivity.
Qed.

Lemma exec_insert_match (c work : Pg.Store) (winner : Z) :
  Pg.exec Pg.lenient
    (mkQuery "INSERT INTO matches (winner) VALUES ($1) RETURNING id" [num winner])
    (Pg.mkState c (Pg.Open work))
  = (Some (mkResult [Pg.row "id" (num (Pg.next_match_id work))]),
     Pg.mkState c
       (Pg.Open
          (Pg.mkStore (Pg.next_match_id work + 1) (Pg.next_player_id work)
             (Pg.matches work
              ++ [Pg.mkMatch (Pg.next_match_id work) (Some (inject_Z winner))])
             (Pg.player_matches work) (Pg.players work)))).
Proof. reflexivity. Qed.

Lemma exec_commit (c work : Pg.Store) :
  Pg.exec Pg.lenient (mkQuery "COMMIT" []) (Pg.mkState c (Pg.Open work))
  = (Some (mkResult []), Pg.mkState work Pg.Idle).
Proof. reflexivity. Qed.

Lemma validated_entries (items : list value) :
  validateNewMatchData (JArr items) = true ->
  forall player, In player items ->
    Ajv.validate
      (Ajv.Schema None None None None
         [("id", Ajv.number_min (-1)); ("kills", Ajv.number_min 0);
          ("deaths", Ajv.number_min 0)] None) player = true.
Proof.
  intros Hv.
  change (validateNewMatchData (JArr items))
    with (true && (1 <=? length items)%nat && (length items <=? 4)%nat
          && forallb (Ajv.validate
                        (Ajv.Schema None None None None
                           [("id", Ajv.number_min (-1)); ("kills", Ajv.number_min 0);
                            ("deaths", Ajv.number_min 0)] None)) items
          && true && true) in Hv.
  rewrite !andb_true_r in Hv. apply andb_prop in Hv. destruct Hv as [_ Hall].
  rewrite forallb_forall in Hall. exact Hall.
Qed.

(** An accepted request of src/match.js without null entry, on an idle
    connection of a server that refuses nothing: the answer and the
    committed data. *)
Lemma match_new_records (req : Request) (w : W) (items : list value) (winner : Z) :
  authorized req = true ->
  @binding_ok rt req = true ->
  parse (qparam_to_string (q_players req)) = Some (JArr items) ->
  parseInt (qparam_to_string (q_winner req)) = Some winner ->
  Pg.conn (db w) = Pg.Idle ->
  ~ In JNull items -> ~ In JUndefined items ->
  db (serve (match_new req) w)
  = Pg.mkState (Ledger.record_match winner items (Pg.committed (db w))) Pg.Idle
  /\ res (serve (match_new req) w)
     = mkResponse 200
         ("Match ID: " ++ show (inject_Z (Pg.next_match_id (Pg.committed (db w)))))
         true.
Proof.
  intros Hauth Hok Hp Hw Hidle Hnull Hundef. unfold match_new.
  rewrite (serve_authorize_passed req _ w Hauth).
  unfold serve, match_new_handler, bind.
  match goal with
  | |- context [match_new_bind req ?w0] =>
      destruct (match_new_bind_accepted req w0 Hok)
        as (players & winner' & Hp' & Hv & Hw' & _ & Hbind)
  end.
  rewrite Hbind.
  change (@JSON_parse rt) with parse in Hp'.
  rewrite Hp in Hp'. injection Hp' as <-.
  rewrite Hw in Hw'. injection Hw' as <-.
  unfold pool_connect.
  cbn [db sent taken given_back res pool connect transactional Pg.pool].
  unfold try_finally, try_catch, match_new_transaction, bind.
  match goal with
  | |- context [@query ?R (mkQuery "BEGIN" []) ?w1] =>
      rewrite (begin_on_idle Pg.lenient parse show w1 Hidle)
  end.
  rewrite query_run. cbn [db sent taken given_back res Pg.committed].
  change (exec pool) with (Pg.exec Pg.lenient).
  rewrite exec_insert_match. cbn [fst snd rows row0 Pg.row ret iterate].
  change (field [("id", num (Pg.next_match_id (Pg.committed (db w))))] "id")
    with (num (Pg.next_match_id (Pg.committed (db w)))).
  match goal with
  | |- context [for_of items ?body ?w2] =>
      destruct (match_new_loop_records winner
                  (Pg.next_match_id (Pg.committed (db w))) items w2
                  (Pg.mkStore (Pg.next_match_id (Pg.committed (db w)) + 1)
                     (Pg.next_player_id (Pg.committed (db w)))
                     (Pg.matches (Pg.committed (db w))
                      ++ [Pg.mkMatch (Pg.next_match_id (Pg.committed (db w)))
                            (Some (inject_Z winner))])
                     (Pg.player_matches (Pg.committed (db w)))
                     (Pg.players (Pg.committed (db w)))))
        as (w3 & E3 & D3 & R3)
  end.
  { intros player Hin. split; [apply (validated_entries items Hv player Hin)|].
    split; intros ->; [apply Hnull|apply Hundef]; exact Hin. }
  { reflexivity. }
  match goal with
  | |- context [@for_of ?R ?A items ?body ?w2] =>
      replace (@for_of R A items body w2) with (@Ok unit tt, w3)
        by (symmetry; exact E3)
  end.
  rewrite query_run. change (exec pool) with (Pg.exec Pg.lenient).
  rewrite D3. cbn [Pg.committed db]. rewrite exec_commit.
  cbn [fst snd write client_release end_ set_res bind db res sent taken given_back
       release pool transactional Pg.pool Pg.release].
  cbn in R3 |- *. rewrite R3. cbn.
  split; [reflexivity|].
  rewrite append_empty_r. reflexivity.
Qed.

(** The rows a payload adds: nothing for the entries of unknown players,
    a row and the counters for each of the others, in order. *)
Lemma fold_record_known (winner mid : Z) (items : list value) (s : Pg.Store) :
  Pg.next_match_id (fold_left (Ledger.record_entry winner mid) items s)
  = Pg.next_match_id s
  /\ Pg.matches (fold_left (Ledger.record_entry winner mid) items s) = Pg.matches s
  /\ Pg.player_matches (fold_left (Ledger.record_entry winner mid) items s)
     = (Pg.player_matches s ++ map (Ledger.entry_row mid) (Ledger.known items))%list
  /\ Pg.players (fold_left (Ledger.record_entry winner mid) items s)
     = fold_left (Ledger.entry_update winner) (Ledger.known items) (Pg.players s).
Proof.
  revert s. induction items as [|player items IH]; intros s.
  - cbn. rewrite app_nil_r. repeat split.
  - cbn [fold_left]. destruct (IH (Ledger.record_entry winner mid s player))
      as (N & M & P & U).
    rewrite N, M, P, U. unfold Ledger.known. cbn [filter].
    unfold Ledger.record_entry.
    destruct (unknown_player player); cbn [negb map fold_left
      Pg.next_match_id Pg.matches Pg.player_matches Pg.players].
    + repeat split.
    + rewrite <- app_assoc. repeat split.
Qed.


(** X12. What a successful match creation of src/match.js stores.  For an
    authorized, accepted request without null entry, on an idle
    connection of a server that refuses nothing, the invocation answers
    200 'Match ID: n' with n the next match id, ends its transaction, and
    the committed data are those before plus the match row with its
    winner and, for every entry whose id is not -1, in order, a row in
    player_matches and the counters of the player with that id (matches
    + 1, wins + 1 for the winner, kills and deaths added). *)
Theorem match_creation_stores_the_match (req : Request) (w : W)
    (items : list value) (winner : Z) :
  authorized req = true ->
  @binding_ok rt req = true ->
  parse (qparam_to_string (q_players req)) = Some (JArr items) ->
  parseInt (qparam_to_string (q_winner req)) = Some winner ->
  Pg.conn (db w) = Pg.Idle ->
  ~ In JNull items -> ~ In JUndefined items ->
  db (serve (match_new req) w)
  = Pg.mkState (Ledger.record_match winner items (Pg.committed (db w))) Pg.Idle
  /\ res (serve (match_new req) w)
     = mkResponse 200
         ("Match ID: " ++ show (inject_Z (Pg.next_match_id (Pg.committed (db w)))))
         true.
Proof. apply match_new_records. Qed.

Lemma update_player_id (with_win : bool) (k d a : Pg.sqlnum) (p : Pg.PlayerRow) :
  Pg.p_id (Pg.update_player with_win k d a p) = Pg.p_id p.
Proof.
  unfold Pg.update_player. destruct (Pg.matches_id (Pg.p_id p) a); reflexivity.
Qed.

Lemma grown_update (with_win : bool) (kills deaths : Q) (a : Pg.sqlnum)
    (p p' : Pg.PlayerRow) :
  (0 <= kills)%Q -> (0 <= deaths)%Q ->
  Ledger.grown p p' ->
  Ledger.grown p (Pg.update_player with_win (Some kills) (Some deaths) a p').
Proof.
  intros Hk Hd (Hid & m & w & k & d & m' & w' & k' & d'
                & Hm & Hw & Hki & Hde & Hm' & Hw' & Hk' & Hd'
                & Lm & Lw & Lk & Ld).
  destruct (update_player_with_counts with_win kills deaths a p' m' w' k' d'
              Hm' Hw' Hk' Hd' Hk Hd)
    as (m2 & w2 & k2 & d2 & Em & Ew & Ek & Ed & Gm & Gw & Gk & Gd).
  split; [rewrite update_player_id; exact Hid|].
  exists m, w, k, d, m2, w2, k2, d2.
  repeat split; try assumption; lra.
Qed.

Lemma complete_entry_counts (player : value) :
  Ajv.validate
    (Ajv.Schema None None None None
       [("id", Ajv.number_min (-1)); ("kills", Ajv.number_min 0);
        ("deaths", Ajv.number_min 0)] None) player = true ->
  Ledger.complete player = true ->
  exists kills deaths,
    Ledger.entry_prop player "kills" = JNum kills
    /\ Ledger.entry_prop player "deaths" = JNum deaths
    /\ (0 <= kills)%Q /\ (0 <= deaths)%Q.
Proof.
  intros Hv Hc. unfold Ledger.complete in Hc.
  destruct player as [| |b|q|s|l|fields]; try discriminate Hc.
  destruct (proj1 (entry_schema_spec (-1) (JObj fields)) Hv fields eq_refl)
    as (_ & Hkills & Hdeaths).
  unfold Ledger.entry_prop, get_prop, field in *.
  destruct (lookup "kills" fields) as [x|]; [|discriminate Hc].
  destruct (lookup "deaths" fields) as [y|];
    [|destruct x; discriminate Hc].
  destruct (Hkills x eq_refl) as (k & -> & Hk).
  destruct (Hdeaths y eq_refl) as (d & -> & Hd).
  exists k, d. repeat split; assumption.
Qed.

Lemma record_entry_grows (winner mid : Z) (s : Pg.Store) (player : value)
    (ps : list Pg.PlayerRow) :
  Ajv.validate
    (Ajv.Schema None None None None
       [("id", Ajv.number_min (-1)); ("kills", Ajv.number_min 0);
        ("deaths", Ajv.number_min 0)] None) player = true ->
  (unknown_player player = false -> Ledger.complete player = true) ->
  Forall2 Ledger.grown ps (Pg.players s) ->
  Forall2 Ledger.grown ps (Pg.players (Ledger.record_entry winner mid s player)).
Proof.
  intros Hv Hc Hg. unfold Ledger.record_entry.
  destruct (unknown_player player); [exact Hg|].
  destruct (complete_entry_counts player Hv (Hc eq_refl))
    as (kills & deaths & -> & -> & Hk & Hd).
  cbn [Pg.players Ledger.sql_of].
  induction Hg as [|p p' ps l Hp Hg IH]; cbn [map]; constructor;
    [apply grown_update; assumption|exact IH].
Qed.

Lemma fold_record_grows (winner mid : Z) (items : list value)
    (s0 : Pg.Store) (ps : list Pg.PlayerRow) :
  (forall player, In player items ->
     Ajv.validate
       (Ajv.Schema None None None None
          [("id", Ajv.number_min (-1)); ("kills", Ajv.number_min 0);
           ("deaths", Ajv.number_min 0)] None) player = true
     /\ (unknown_player player = false -> Ledger.complete player = true)) ->
  Forall2 Ledger.grown ps (Pg.players s0) ->
  Forall2 Ledger.grown ps
    (Pg.players (fold_left (Ledger.record_entry winner mid) items s0)).
Proof.
  revert s0. induction items as [|player items IH]; intros s0 Hall Hg; [exact Hg|].
  cbn [fold_left]. apply IH.
  - intros p Hp. apply Hall. right. exact Hp.
  - destruct (Hall player (or_introl eq_refl)) as [Hv Hc].
    apply record_entry_grows; assumption.
Qed.

Lemma record_match_grows (winner : Z) (items : list value) (s : Pg.Store) :
  (forall player, In player items ->
     Ajv.validate
       (Ajv.Schema None None None None
          [("id", Ajv.number_min (-1)); ("kills", Ajv.number_min 0);
           ("deaths", Ajv.number_min 0)] None) player = true
     /\ (unknown_player player = false -> Ledger.complete player = true)) ->
  Forall Ledger.counted (Pg.players s) ->
  Forall2 Ledger.grown (Pg.players s)
    (Pg.players (Ledger.record_match winner items s)).
Proof.
  intros Hall Hcounted. unfold Ledger.record_match.
  apply fold_record_grows; [exact Hall|]. cbn [Pg.players].
  induction Hcounted as [|p ps Hp _ IH]; constructor; [|exact IH].
  destruct Hp as (m & w & k & d & Hm & Hw & Hk & Hd & _).
  split; [reflexivity|]. exists m, w, k, d, m, w, k, d.
  repeat split; try assumption; lra.
Qed.

(** X13. With entries that carry their kills and deaths, a successful
    match creation of src/match.js never lowers a counter.  For an
    authorized, accepted request without null entry, on an idle
    connection of a server that refuses nothing: if the counters of every
    player are numbers that are not negative and every entry whose id is
    not -1 has numeric kills and deaths, then afterwards the same players
    are stored, each with counters that are numbers not below the ones
    before. *)
Theorem complete_entries_keep_counters (req : Request) (w : W)
    (items : list value) (winner : Z) :
  authorized req = true ->
  @binding_ok rt req = true ->
  parse (qparam_to_string (q_players req)) = Some (JArr items) ->
  parseInt (qparam_to_string (q_winner req)) = Some winner ->
  Pg.conn (db w) = Pg.Idle ->
  ~ In JNull items -> ~ In JUndefined items ->
  Forall Ledger.counted (Pg.players (Pg.committed (db w))) ->
  (forall player, In player items ->
     unknown_player player = false -> Ledger.complete player = true) ->
  Forall2 Ledger.grown (Pg.players (Pg.committed (db w)))
    (Pg.players (Pg.committed (db (serve (match_new req) w)))).
Proof.
  intros Hauth Hok Hp Hw Hidle Hnull Hundef Hcounted Hcomplete.
  destruct (match_new_records req w items winner Hauth Hok Hp Hw Hidle Hnull Hundef)
    as [Hdb _].
  rewrite Hdb. cbn [Pg.committed].
  apply record_match_grows; [|exact Hcounted].
  intros player Hin. split; [|apply Hcomplete; exact Hin].
  destruct (match_new_bind_accepted req w Hok)
    as (players & winner' & Hp' & Hv & _).
  change (@JSON_parse rt) with parse in Hp'.
  rewrite Hp in Hp'. injection Hp' as <-.
  apply (validated_entries items Hv player Hin).
Qed.

(** *** The first revision of src/index.js: a match posted is listed *)

Lemma exec_insert_player_only (c work : Pg.Store) (player mid : Z) :
  Pg.exec Pg.lenient
    (mkQuery "INSERT INTO player_matches (player, match) VALUES ($1, $2)"
       [num player; num mid])
    (Pg.mkState c (Pg.Open work))
  = (Some (mkResult []),
     Pg.mkState c
       (Pg.Open
          (Pg.mkStore (Pg.next_match_id work) (Pg.next_player_id work)
             (Pg.matches work)
             (Pg.player_matches work
              ++ [Pg.mkPlayerMatch (Some (inject_Z player)) (Some (inject_Z mid))
                    None None])
             (Pg.players work)))).
Proof. reflexivity. Qed.

Lemma first_loop_records (mid : Z) (players : list Z) (w : W) (c work : Pg.Store) :
  db w = Pg.mkState c (Pg.Open work) ->
  exists w',
    for_of players
      (fun player =>
         query_unawaited
           (mkQuery "INSERT INTO player_matches (player, match) VALUES ($1, $2)"
              [num player; num mid])) w = (Ok tt, w')
    /\ db w'
       = Pg.mkState c
           (Pg.Open
              (Pg.mkStore (Pg.next_match_id work) (Pg.next_player_id work)
                 (Pg.matches work)
                 (Pg.player_matches work
                  ++ map (fun id =>
                            Pg.mkPlayerMatch (Some (inject_Z id))
                              (Some (inject_Z mid)) None None) players)
                 (Pg.players work)))
    /\ res w' = res w /\ given_back w' = given_back w.
Proof.
  revert w work. induction players as [|player players IH]; intros w work Hdb.
  - exists w. cbn [for_of map]. rewrite app_nil_r.
    repeat split. rewrite Hdb. destruct work; reflexivity.
  - cbn [for_of map]. unfold bind, query_unawaited.
    change (exec pool) with (Pg.exec Pg.lenient).
    rewrite Hdb, exec_insert_player_only.
    match goal with
    | |- context [for_of players _ ?w1] =>
        destruct (IH w1 _ eq_refl) as (w2 & E2 & D2 & R2 & G2)
    end.
    exists w2. split; [exact E2|]. split; [|split; assumption].
    rewrite D2. cbn [Pg.next_match_id Pg.next_player_id Pg.matches
                     Pg.player_matches Pg.players].
    rewrite <- app_assoc. reflexivity.
Qed.

(** An invocation of the first revision whose ids pass the checks, on an
    idle connection of a server that refuses nothing. *)
Lemma first_match_new_records (req : Request) (w : W)
    (ids : list string) (players : list Z) (winner : Z) :
  q_p req = QArray ids ->
  Forall2 (fun s n => parseInt s = Some n /\ 0 <= n) ids players ->
  parseInt (qparam_to_string (q_winner req)) = Some winner ->
  0 <= winner ->
  Pg.conn (db w) = Pg.Idle ->
  db (serve (first_match_new req) w)
  = Pg.mkState (Ledger.record_first_match winner players (Pg.committed (db w)))
      Pg.Idle
  /\ res (serve (first_match_new req) w)
     = mkResponse 200
         ("created match "
          ++ show (inject_Z (Pg.next_match_id (Pg.committed (db w)))))
         true.
Proof.
  intros Hp Hids Hw Hpos Hidle.
  unfold serve, first_match_new, try_catch, bind, validatePlayerIds.
  rewrite Hp.
  match goal with
  | |- context [map_m validateOnePlayerId ids ?w0] =>
      rewrite (validatePlayerIds_parsed ids players w0 Hids)
  end.
  rewrite validateOnePlayerId_run, Hw.
  apply Z.ltb_ge in Hpos. rewrite Hpos. cbn [ret].
  unfold pool_connect.
  cbn [db sent taken given_back res pool connect transactional Pg.pool].
  unfold try_finally, try_catch, first_match_new_transaction, bind.
  match goal with
  | |- context [@query ?R (mkQuery "BEGIN" []) ?w1] =>
      rewrite (begin_on_idle Pg.lenient parse show w1 Hidle)
  end.
  rewrite query_run. cbn [db sent taken given_back res Pg.committed].
  change (exec pool) with (Pg.exec Pg.lenient).
  rewrite exec_insert_match. cbn [fst snd rows row0 Pg.row ret].
  change (field [("id", num (Pg.next_match_id (Pg.committed (db w))))] "id")
    with (num (Pg.next_match_id (Pg.committed (db w)))).
  match goal with
  | |- context [@for_of ?R ?A players ?body ?w2] =>
      destruct (first_loop_records (Pg.next_match_id (Pg.committed (db w)))
                  players w2 _ _ eq_refl) as (w3 & E3 & D3 & R3 & G3);
      replace (@for_of R A players body w2) with (@Ok unit tt, w3)
        by (symmetry; exact E3)
  end.
  rewrite query_run. change (exec pool) with (Pg.exec Pg.lenient).
  rewrite D3. rewrite exec_commit.
  cbn [fst snd write client_release end_ set_res bind db res sent taken given_back
       release pool transactional Pg.pool Pg.release].
  cbn in R3 |- *. rewrite R3. cbn.
  split; [reflexivity|].
  rewrite append_empty_r. reflexivity.
Qed.

Lemma Qeq_bool_inject (a b : Z) : Qeq_bool (inject_Z a) (inject_Z b) = (a =? b).
Proof.
  destruct (a =? b) eqn:E.
  - apply Z.eqb_eq in E. subst. apply Qeq_bool_iff. reflexivity.
  - apply Z.eqb_neq in E. destruct (Qeq_bool (inject_Z a) (inject_Z b)) eqn:Q;
      [|reflexivity].
    apply Qeq_bool_iff in Q. unfold Qeq in Q. cbn in Q. lia.
Qed.

Lemma listing_grows (winner : Z) (players : list Z) (s : Pg.Store) (q : Z) :
  Ledger.listing show (Ledger.record_first_match winner players s) q
  = (Ledger.listing show s q
     ++ repeat (show (inject_Z (Pg.next_match_id s)))
          (count_occ Z.eq_dec players q))%list.
Proof.
  unfold Ledger.listing, Ledger.record_first_match. cbn [Pg.player_matches].
  rewrite filter_app, map_app. f_equal.
  induction players as [|id players IH]; [reflexivity|].
  cbn [map filter Pg.pm_player Pg.same count_occ].
  rewrite Qeq_bool_inject.
  destruct (Z.eq_dec id q) as [->|Hne].
  - rewrite Z.eqb_refl. cbn [map repeat Pg.pm_match]. rewrite IH. reflexivity.
  - replace (id =? q) with false by (symmetry; apply Z.eqb_neq; exact Hne).
    exact IH.
Qed.

(** X14. In the first revision of src/index.js a match posted is listed.
    After an invocation of /match/new whose ids pass the checks, on an
    idle connection of a server that refuses nothing, the match list of
    a player shows the matches listed before followed by the new match
    id, once for every occurrence of the player in [p]; the new id is the
    one the answer 'created match n' names. *)
Theorem posted_match_is_listed (req lreq : Request) (w : W)
    (ids : list string) (players : list Z) (winner q : Z) :
  q_p req = QArray ids ->
  Forall2 (fun s n => parseInt s = Some n /\ 0 <= n) ids players ->
  parseInt (qparam_to_string (q_winner req)) = Some winner ->
  0 <= winner ->
  Pg.conn (db w) = Pg.Idle ->
  parseInt (player_id lreq) = Some q ->
  0 <= q ->
  res (serve (first_match_new req) w)
  = mkResponse 200
      ("created match " ++ show (inject_Z (Pg.next_match_id (Pg.committed (db w)))))
      true
  /\ res (serve (player_matches_handler lreq) (serve (first_match_new req) w))
     = mkResponse 200
         (match Ledger.listing show (Pg.committed (db w)) q
                ++ repeat (show (inject_Z (Pg.next_match_id (Pg.committed (db w)))))
                     (count_occ Z.eq_dec players q)
          with
          | [] => "no matches found"
          | l => String.concat "," l
          end)%list
         true.
Proof.
  intros Hp Hids Hw Hpos Hidle Hq Hqpos.
  destruct (first_match_new_records req w ids players winner Hp Hids Hw Hpos Hidle)
    as [Hdb Hres].
  split; [exact Hres|].
  rewrite <- listing_grows with (winner := winner).
  unfold serve at 1. unfold player_matches_handler, try_catch, bind.
  rewrite validateOnePlayerId_run, Hq.
  apply Z.ltb_ge in Hqpos. rewrite Hqpos. cbn [ret].
  rewrite query_run. cbn [db sent taken given_back res].
  change (exec pool) with (Pg.exec Pg.lenient).
  rewrite Hdb.
  change (Pg.exec Pg.lenient
            (mkQuery "SELECT match FROM player_matches WHERE player = $1" [num q])
            (Pg.mkState (Ledger.record_first_match winner players
                           (Pg.committed (db w))) Pg.Idle))
    with (Some (mkResult
                  (map (fun r => Pg.row "match" (Pg.of_num (Pg.pm_match r)))
                     (filter (fun r => Pg.same (Pg.pm_player r) (Some (inject_Z q)))
                        (Pg.player_matches
                           (Ledger.record_first_match winner players
                              (Pg.committed (db w))))))),
          Pg.mkState (Ledger.record_first_match winner players
                        (Pg.committed (db w))) Pg.Idle).
  cbn [fst snd]. unfold rowCount, Ledger.listing. cbn [rows].
  rewrite length_map.
  destruct (filter _ _) as [|r rs] eqn:Hf; [reflexivity|].
  cbn [length Nat.eqb]. unfold end_, set_res. cbn [snd res].
  rewrite reduce_with_commas by discriminate.
  change (EmptyString ++ ?x) with x.
  rewrite chop_append_comma, !map_map.
  rewrite (map_ext
             (fun x => to_string (field (Pg.row "match" (Pg.of_num (Pg.pm_match x)))
                                    "match"))
             (fun r => match Pg.pm_match r with Some m => show m | None => "null" end)).
  - reflexivity.
  - intros r'.
    change (field (Pg.row "match" (Pg.of_num (Pg.pm_match r'))) "match")
      with (Pg.of_num (Pg.pm_match r')).
    destruct (Pg.pm_match r'); reflexivity.
Qed.

(** *** The transaction a failed invocation leaves behind *)

Lemma for_of_app {A} (l1 l2 : list A) (f : A -> M unit) (w : W) :
  for_of (l1 ++ l2) f w
  = match for_of l1 f w with
    | (Ok _, w') => for_of l2 f w'
    | (Throw e, w') => (Throw e, w')
    end.
Proof.
  revert w. induction l1 as [|x l1 IH]; intros w; [reflexivity|].
  cbn [app for_of]. unfold bind.
  destruct (f x w) as [[u|e] w1]; [apply IH|reflexivity].
Qed.

(** BEGIN on an idle connection opens a transaction on the committed
    data; on a connection whose transaction is open it changes nothing. *)
Lemma begin_gives_open (w : W) (work : Pg.Store) :
  Pg.conn (db w) = Pg.Idle /\ work = Pg.committed (db w)
  \/ Pg.conn (db w) = Pg.Open work ->
  query (mkQuery "BEGIN" []) w
  = (Ok (mkResult []),
     mkWorld (Pg.mkState (Pg.committed (db w)) (Pg.Open work))
       (sent w ++ [mkQuery "BEGIN" []]) (taken w) (given_back w) (res w)).
Proof.
  intros H. rewrite query_run. cbn [db sent taken given_back res fst snd].
  change (exec pool) with (Pg.exec Pg.lenient).
  unfold Pg.exec. cbn [text String.eqb Ascii.eqb Bool.eqb].
  destruct (db w) as [c t]. cbn [Pg.conn Pg.committed] in *.
  destruct H as [[-> ->]| ->]; reflexivity.
Qed.

(** An accepted request of src/match.js without null entry, on a server
    that refuses nothing, on a connection that is idle or was given back
    with its transaction open on [work]: the match is recorded on [work]
    and COMMIT makes the result the committed data. *)
Lemma match_new_records_in (req : Request) (w : W) (items : list value)
    (winner : Z) (work : Pg.Store) :
  authorized req = true ->
  @binding_ok rt req = true ->
  parse (qparam_to_string (q_players req)) = Some (JArr items) ->
  parseInt (qparam_to_string (q_winner req)) = Some winner ->
  Pg.conn (db w) = Pg.Idle /\ work = Pg.committed (db w)
  \/ Pg.conn (db w) = Pg.Open work ->
  ~ In JNull items -> ~ In JUndefined items ->
  db (serve (match_new req) w)
  = Pg.mkState (Ledger.record_match winner items work) Pg.Idle
  /\ res (serve (match_new req) w)
     = mkResponse 200 ("Match ID: " ++ show (inject_Z (Pg.next_match_id work))) true.
Proof.
  intros Hauth Hok Hp Hw Hconn Hnull Hundef. unfold match_new.
  rewrite (serve_authorize_passed req _ w Hauth).
  unfold serve, match_new_handler, bind.
  match goal with
  | |- context [match_new_bind req ?w0] =>
      destruct (match_new_bind_accepted req w0 Hok)
        as (players & winner' & Hp' & Hv & Hw' & _ & Hbind)
  end.
  rewrite Hbind.
  change (@JSON_parse rt) with parse in Hp'.
  rewrite Hp in Hp'. injection Hp' as <-.
  rewrite Hw in Hw'. injection Hw' as <-.
  unfold pool_connect.
  cbn [db sent taken given_back res pool connect transactional Pg.pool].
  unfold try_finally, try_catch, match_new_transaction, bind.
  match goal with
  | |- context [@query ?R (mkQuery "BEGIN" []) ?w1] =>
      rewrite (begin_gives_open w1 work Hconn)
  end.
  rewrite query_run. cbn [db sent taken given_back res Pg.committed].
  change (exec pool) with (Pg.exec Pg.lenient).
  rewrite exec_insert_match. cbn [fst snd rows row0 Pg.row ret iterate].
  change (field [("id", num (Pg.next_match_id work))] "id")
    with (num (Pg.next_match_id work)).
  match goal with
  | |- context [for_of items ?body ?w2] =>
      destruct (match_new_loop_records winner (Pg.next_match_id work) items w2
                  (Pg.mkStore (Pg.next_match_id work + 1) (Pg.next_player_id work)
                     (Pg.matches work
                      ++ [Pg.mkMatch (Pg.next_match_id work) (Some (inject_Z winner))])
                     (Pg.player_matches work) (Pg.players work)))
        as (w3 & E3 & D3 & R3)
  end.
  { intros player Hin. split; [apply (validated_entries items Hv player Hin)|].
    split; intros ->; [apply Hnull|apply Hundef]; exact Hin. }
  { reflexivity. }
  match goal with
  | |- context [@for_of ?R ?A items ?body ?w2] =>
      replace (@for_of R A items body w2) with (@Ok unit tt, w3)
        by (symmetry; exact E3)
  end.
  rewrite query_run. change (exec pool) with (Pg.exec Pg.lenient).
  rewrite D3. cbn [Pg.committed db]. rewrite exec_commit.
  cbn [fst snd write client_release end_ set_res bind db res sent taken given_back
       release pool transactional Pg.pool Pg.release].
  cbn in R3 |- *. rewrite R3. cbn.
  split; [reflexivity|].
  rewrite append_empty_r. reflexivity.
Qed.

(** An accepted request of src/match.js with a null entry, on an idle
    connection of a server that refuses nothing: the handler fails on the
    null entry, answers 500 and gives the connection back with the
    transaction open on what it recorded before. *)
Lemma match_new_stops_at_null (req : Request) (w : W) (good rest : list value)
    (winner : Z) :
  authorized req = true ->
  @binding_ok rt req = true ->
  parse (qparam_to_string (q_players req)) = Some (JArr (good ++ JNull :: rest)) ->
  parseInt (qparam_to_string (q_winner req)) = Some winner ->
  Pg.conn (db w) = Pg.Idle ->
  ~ In JNull good -> ~ In JUndefined good ->
  db (serve (match_new req) w)
  = Pg.mkState (Pg.committed (db w))
      (Pg.Open (Ledger.record_match winner good (Pg.committed (db w))))
  /\ res (serve (match_new req) w) = mkResponse 500 "Match creation failed" true.
Proof.
  intros Hauth Hok Hp Hw Hidle Hnull Hundef. unfold match_new.
  rewrite (serve_authorize_passed req _ w Hauth).
  unfold serve, match_new_handler, bind.
  match goal with
  | |- context [match_new_bind req ?w0] =>
      destruct (match_new_bind_accepted req w0 Hok)
        as (players & winner' & Hp' & Hv & Hw' & _ & Hbind)
  end.
  rewrite Hbind.
  change (@JSON_parse rt) with parse in Hp'.
  rewrite Hp in Hp'. injection Hp' as <-.
  rewrite Hw in Hw'. injection Hw' as <-.
  unfold pool_connect.
  cbn [db sent taken given_back res pool connect transactional Pg.pool].
  unfold try_finally, try_catch, match_new_transaction, bind.
  match goal with
  | |- context [@query ?R (mkQuery "BEGIN" []) ?w1] =>
      rewrite (begin_on_idle Pg.lenient parse show w1 Hidle)
  end.
  rewrite query_run. cbn [db sent taken given_back res Pg.committed].
  change (exec pool) with (Pg.exec Pg.lenient).
  rewrite exec_insert_match. cbn [fst snd rows row0 Pg.row ret iterate].
  change (field [("id", num (Pg.next_match_id (Pg.committed (db w))))] "id")
    with (num (Pg.next_match_id (Pg.committed (db w)))).
  rewrite for_of_app.
  match goal with
  | |- context [for_of good ?body ?w2] =>
      destruct (match_new_loop_records winner
                  (Pg.next_match_id (Pg.committed (db w))) good w2
                  (Pg.mkStore (Pg.next_match_id (Pg.committed (db w)) + 1)
                     (Pg.next_player_id (Pg.committed (db w)))
                     (Pg.matches (Pg.committed (db w))
                      ++ [Pg.mkMatch (Pg.next_match_id (Pg.committed (db w)))
                            (Some (inject_Z winner))])
                     (Pg.player_matches (Pg.committed (db w)))
                     (Pg.players (Pg.committed (db w)))))
        as (w3 & E3 & D3 & R3)
  end.
  { intros player Hin. split.
    - apply (validated_entries _ Hv player). apply in_or_app. left. exact Hin.
    - split; intros ->; [apply Hnull|apply Hundef]; exact Hin. }
  { reflexivity. }
  match goal with
  | |- context [@for_of ?R ?A good ?body ?w2] =>
      replace (@for_of R A good body w2) with (@Ok unit tt, w3)
        by (symmetry; exact E3)
  end.
  cbn [for_of]. unfold bind at 1. unfold match_new_player at 1.
  unfold bind at 1. unfold prop at 1. cbn [get_prop throw].
  cbn [fst snd write writeHead client_release end_ set_res bind db res sent taken
       given_back release pool transactional Pg.pool Pg.release].
  cbn in R3, D3 |- *. rewrite R3, D3. cbn.
  split; reflexivity.
Qed.

(** X16. src/match.js sends no ROLLBACK when it fails, and gives the
    connection back as it is.  On a server that refuses nothing: a
    request whose payload has a null entry after some entries that are
    not null is answered 500 'Match creation failed' with the committed
    tables unchanged, but its transaction stays open; when the pool hands
    that connection out again, the next accepted request without null
    entry is answered 200 and its COMMIT commits both matches: the
    committed data are then those of the failed match recorded with the
    entries before the null one, followed by the match of the second
    request. *)
Theorem failed_match_is_committed_later (req1 req2 : Request) (w : W)
    (good rest items2 : list value) (winner1 winner2 : Z) :
  authorized req1 = true ->
  @binding_ok rt req1 = true ->
  parse (qparam_to_string (q_players req1)) = Some (JArr (good ++ JNull :: rest)) ->
  parseInt (qparam_to_string (q_winner req1)) = Some winner1 ->
  ~ In JNull good -> ~ In JUndefined good ->
  authorized req2 = true ->
  @binding_ok rt req2 = true ->
  parse (qparam_to_string (q_players req2)) = Some (JArr items2) ->
  parseInt (qparam_to_string (q_winner req2)) = Some winner2 ->
  ~ In JNull items2 -> ~ In JUndefined items2 ->
  Pg.conn (db w) = Pg.Idle ->
  res (serve (match_new req1) w) = mkResponse 500 "Match creation failed" true
  /\ Pg.tables (Pg.committed (db (serve (match_new req1) w)))
     = Pg.tables (Pg.committed (db w))
  /\ res (serve (match_new req2) (serve (match_new req1) w))
     = mkResponse 200
         ("Match ID: "
          ++ show (inject_Z (Pg.next_match_id (Pg.committed (db w)) + 1)))
         true
  /\ db (serve (match_new req2) (serve (match_new req1) w))
     = Pg.mkState
         (Ledger.record_match winner2 items2
            (Ledger.record_match winner1 good (Pg.committed (db w))))
         Pg.Idle.
Proof.
  intros Ha1 Hok1 Hp1 Hw1 Hn1 Hu1 Ha2 Hok2 Hp2 Hw2 Hn2 Hu2 Hidle.
  destruct (match_new_stops_at_null req1 w good rest winner1
              Ha1 Hok1 Hp1 Hw1 Hidle Hn1 Hu1) as [D1 R1].
  destruct (match_new_records_in req2 (serve (match_new req1) w) items2 winner2
              (Ledger.record_match winner1 good (Pg.committed (db w)))
              Ha2 Hok2 Hp2 Hw2) as [D2 R2]; try assumption.
  { right. rewrite D1. reflexivity. }
  split; [exact R1|]. split; [rewrite D1; reflexivity|].
  split; [|exact D2].
  rewrite R2. f_equal. f_equal. f_equal.
  unfold Ledger.record_match.
  destruct (fold_record_known winner1 (Pg.next_match_id (Pg.committed (db w))) good
              (Pg.mkStore (Pg.next_match_id (Pg.committed (db w)) + 1)
                 (Pg.next_player_id (Pg.committed (db w)))
                 (Pg.matches (Pg.committed (db w))
                  ++ [Pg.mkMatch (Pg.next_match_id (Pg.committed (db w)))
                        (Some (inject_Z winner1))])
                 (Pg.player_matches (Pg.committed (db w)))
                 (Pg.players (Pg.committed (db w))))) as (N & _).
  rewrite N. reflexivity.
Qed.

End Recorded.



(** ** On the transactional model, with a server that refuses a player *)

Section Unnoticed.
Import JS.

Variable rejects : Pg.Store -> Query -> bool.
Variable parse : string -> option value.
Variable show : Q -> string.

Local Abbreviation rt := (transactional rejects parse show).
Local Abbreviation W := (@W rt).





End Unnoticed.

(** ** The further properties at concrete requests *)

(** X1 at the match of players 1 and 2: one connection taken and given
    back; with a pool that hands out none, no answer at all. *)
Lemma match_new_releases_witness :
  ((taken (@serve (Run.runtime Pg.lenient)
             (match_new_handler Run.two_players_request) Run.world0)
    + given_back Run.world0
    = given_back (@serve (Run.runtime Pg.lenient)
                    (match_new_handler Run.two_players_request) Run.world0)
      + taken Run.world0)%nat
   /\ ended (res (@serve (Run.runtime Pg.lenient)
                    (match_new_handler Run.two_players_request) Run.world0)) = true)
  /\ @serve Run2.exhausted (match_new_handler Run2.null_entry_request) Run.world0
     = mkWorld (db Run.world0) (sent Run.world0) (S (taken Run.world0))
         (given_back Run.world0) fresh_response.
Proof.
  split.
  - apply (proj1 (@match_new_releases_what_it_takes (Run.runtime Pg.lenient)
                    Run.two_players_request Run.world0)).
    discriminate.
  - apply (proj2 (@match_new_releases_what_it_takes Run2.exhausted
                    Run2.null_entry_request Run.world0)); reflexivity.
Defined.

(** X2 at players=[null]. *)
Lemma null_entry_witness :
  res (@serve Run2.runtime (match_new_handler Run2.null_entry_request) Run.world0)
  = mkResponse 500 "Match creation failed" true.
Proof.
  apply (@null_entry_is_answered_500 Run2.runtime Run2.null_entry_request
           Run.world0 [JS.JNull]).
  - reflexivity.
  - reflexivity.
  - left. reflexivity.
  - discriminate.
Defined.

(** X3 at p=1&p=x and at p=1&p=2. *)
Lemma first_match_new_checks_witness :
  @serve (Run.runtime Pg.lenient) (first_match_new Run2.first_invalid_request)
    Run.world0
  = @answer (Run.runtime Pg.lenient) Run.world0 (mkResponse 200 "invalid id" true)
  /\ taken (@serve (Run.runtime Pg.lenient) (first_match_new Run.first_request)
              Run.world0) = 1%nat.
Proof.
  split.
  - apply (proj1 (@first_match_new_checks_ids (Run.runtime Pg.lenient)
                    Run2.first_invalid_request Run.world0)).
    reflexivity.
  - apply (proj2 (@first_match_new_checks_ids (Run.runtime Pg.lenient)
                    Run.first_request Run.world0)).
    reflexivity.
Defined.

(** X4 at the id 'abc', and at the id 1 on a server that refuses every
    statement. *)
Lemma list_and_scores_edges_witness :
  @serve (Run.runtime Pg.lenient) (scores_all_handler (Run.get "abc")) Run.world0
  = @answer (Run.runtime Pg.lenient) Run.world0 (mkResponse 200 "invalid player id" true)
  /\ res (@serve (Run.runtime Run2.refuse_all) (player_matches_handler (Run.get "1"))
            Run.world0)
     = fresh_response.
Proof.
  split.
  - apply (proj1 (@list_and_scores_edges (Run.runtime Pg.lenient) (Run.get "abc")
                    Run.world0)).
    reflexivity.
  - rewrite (proj1 (proj2 (@list_and_scores_edges (Run.runtime Run2.refuse_all)
                             (Run.get "1") Run.world0)
                      1 (Pg.mkState Run.store0 Pg.Idle) eq_refl ltac:(lia))
               eq_refl).
    reflexivity.
Defined.

(** X5 at player 1 after the match player 1 won. *)
Lemma score_summary_counts_witness :
  count_wins 1 (mkResult [Pg.row "winner" (num 1)]) = 1
  /\ body (res (@serve (Run.runtime Pg.lenient) (scores_all_handler (Run.get "1"))
                  Run.world1))
     = "matches: 1" ++ newline ++ "wins: 1" ++ newline
       ++ "losses: 0" ++ newline ++ "win percent: 1" ++ newline.
Proof.
  destruct (@score_summary_counts (Run.runtime Pg.lenient) (Run.get "1") Run.world1
              1 (mkResult [Pg.row "winner" (num 1)])
              (Pg.mkState Run.store1 Pg.Idle) eq_refl ltac:(lia) eq_refl)
    as (Hwins & _ & Hres).
  split; [reflexivity|].
  rewrite Hres. reflexivity.
Defined.

(** X6 at the ids 0 and 1. *)
Lemma stats_competitors_guard_witness :
  @serve (Run.runtime Pg.lenient)
    (player_stats_competitors Run2.stringify (Run.get "0")) Run.world0
  = @answer (Run.runtime Pg.lenient) Run.world0 (mkResponse 400 "Invalid player ID." true)
  /\ length (sent (@serve (Run.runtime Pg.lenient)
                     (player_stats_competitors Run2.stringify (Run.get "1"))
                     Run.world0)) = 1%nat.
Proof.
  split.
  - apply (proj1 (@stats_competitors_is_guarded (Run.runtime Pg.lenient)
                    Run2.stringify (Run.get "0") Run.world0)).
    reflexivity.
  - rewrite (proj1 (proj2 (@stats_competitors_is_guarded (Run.runtime Pg.lenient)
                             Run2.stringify (Run.get "1") Run.world0) eq_refl)).
    reflexivity.
Defined.

(** X7 at the id 'abc'. *)
Lemma index_competitors_witness :
  res (@serve (Run.runtime Pg.lenient)
         (index_competitors Run2.stringify (Run.get "abc")) Run.world0)
  = mkResponse 400 EmptyString true.
Proof.
  apply (@index_competitors_queries_after_400 (Run.runtime Pg.lenient)
           Run2.stringify (Run.get "abc") Run.world0).
  reflexivity.
Defined.

(** X8 at [[7,8]]: an array of numbers is accepted. *)
Lemma validateNewMatchData_witness :
  validateNewMatchData Run2.numbers = true.
Proof.
  apply (proj2 (validateNewMatchData_accepts Run2.numbers)).
  exists [JS.JNum 7; JS.JNum 8].
  split; [reflexivity|]. split; [simpl; lia|].
  intros fields [H|[H|[]]]; discriminate H.
Defined.

(** X9 at [[{"id":-0.5}]], which only src/match.js accepts. *)
Lemma earlier_schema_witness :
  exists items fields q,
    Run2.half_id = JS.JArr items /\ In (JS.JObj fields) items
    /\ JS.lookup "id" fields = Some (JS.JNum q) /\ (-1 <= q)%Q /\ (q < 0)%Q.
Proof.
  apply (proj2 (earlier_schema_is_stricter Run2.half_id)); reflexivity.
Defined.

(** X10 at the id 42. *)
Lemma decimal_ids_witness :
  @validateOnePlayerId (Run.runtime Pg.lenient) "42" Run.world0
  = (Ok 42, Run.world0)
  /\ @validatePlayerId (Run.runtime Pg.lenient) (Run.get "42")
       (@ret (Run.runtime Pg.lenient) unit tt)
     = @ret (Run.runtime Pg.lenient) unit tt.
Proof.
  assert (H42 : JS.exact_integer 42) by (unfold JS.exact_integer; lia).
  split.
  - exact (proj1 (@decimal_ids_round_trip (Run.runtime Pg.lenient) 42
                    (Run.get "42") (@ret (Run.runtime Pg.lenient) unit tt) Run.world0
                    H42)).
  - exact (proj2 (@decimal_ids_round_trip (Run.runtime Pg.lenient) 42
                    (Run.get "42") (@ret (Run.runtime Pg.lenient) unit tt) Run.world0
                    H42) eq_refl).
Defined.

(** X11 at the match of players 1 and 2. *)
Lemma revisions_agree_witness :
  sent (@serve (Run.runtime Pg.lenient) (index_match_new Run.two_players_request)
          Run.world0)
  = sent (@serve (Run.runtime Pg.lenient) (match_new Run.two_players_request)
            Run.world0).
Proof.
  apply (@revisions_agree_on_accepted_payloads (Run.runtime Pg.lenient)
           Run.two_players_request Run.world0).
  reflexivity.
Defined.

(** X12 at the match of players 1 and 2, won by player 1. *)
Lemma match_creation_stores_witness :
  db (@serve (Run.runtime Pg.lenient) (match_new Run.two_players_request) Run.world0)
  = Pg.mkState
      (Ledger.record_match 1 [Run.entry 1 3 1; Run.entry 2 0 2] Run.store0) Pg.Idle
  /\ res (@serve (Run.runtime Pg.lenient) (match_new Run.two_players_request)
            Run.world0)
     = mkResponse 200 "Match ID: 1" true.
Proof.
  apply (match_creation_stores_the_match Run.parse Run.show_number
           Run.two_players_request Run.world0 [Run.entry 1 3 1; Run.entry 2 0 2] 1);
    try reflexivity.
  - intros [H|[H|[]]]; discriminate H.
  - intros [H|[H|[]]]; discriminate H.
Defined.

(** X13 at the same match. *)
Lemma complete_entries_witness :
  Forall2 Ledger.grown (Pg.players Run.store0)
    (Pg.players
       (Pg.committed
          (db (@serve (Run.runtime Pg.lenient) (match_new Run.two_players_request)
                 Run.world0)))).
Proof.
  apply (complete_entries_keep_counters Run.parse Run.show_number
           Run.two_players_request Run.world0 [Run.entry 1 3 1; Run.entry 2 0 2] 1);
    try reflexivity.
  - intros [H|[H|[]]]; discriminate H.
  - intros [H|[H|[]]]; discriminate H.
  - repeat apply Forall_cons; try apply Forall_nil;
      exists 0%Q, 0%Q, 0%Q, 0%Q; repeat split; discriminate.
  - intros player [<-|[<-|[]]] _; reflexivity.
Defined.

(** X14 at p=1&p=2, then the list of player 1. *)
Lemma posted_match_witness :
  res (@serve (Run.runtime Pg.lenient) (player_matches_handler (Run.get "1"))
         (@serve (Run.runtime Pg.lenient) (first_match_new Run.first_request)
            Run.world0))
  = mkResponse 200 "1" true.
Proof.
  apply (posted_match_is_listed Run.parse Run.show_number Run.first_request
           (Run.get "1") Run.world0 ["1"; "2"] [1; 2] 1 1);
    try reflexivity; try lia.
  repeat (constructor; [split; [reflexivity|lia]|]). constructor.
Defined.



(** X16 at players=[{"id":1,...},null] followed by the match of players 1
    and 2: the first request is answered 500, the second 200 'Match ID:
    2', and the committed data then hold match 1 with the row of player
    1 beside match 2. *)
Lemma failed_match_witness :
  res (@serve Run2.runtime (match_new Run2.one_then_null_request) Run.world0)
  = mkResponse 500 "Match creation failed" true
  /\ Pg.tables
       (Pg.committed
          (db (@serve Run2.runtime (match_new Run2.one_then_null_request)
                 Run.world0)))
     = Pg.tables Run.store0
  /\ res (@serve Run2.runtime (match_new Run.two_players_request)
            (@serve Run2.runtime (match_new Run2.one_then_null_request)
               Run.world0))
     = mkResponse 200 "Match ID: 2" true
  /\ db (@serve Run2.runtime (match_new Run.two_players_request)
           (@serve Run2.runtime (match_new Run2.one_then_null_request)
              Run.world0))
     = Pg.mkState
         (Pg.mkStore 3 3 [Pg.mkMatch 1 (Some 1%Q); Pg.mkMatch 2 (Some 1%Q)]
            [Pg.mkPlayerMatch (Some 1%Q) (Some 1%Q) (Some 3%Q) (Some 1%Q);
             Pg.mkPlayerMatch (Some 1%Q) (Some 2%Q) (Some 3%Q) (Some 1%Q);
             Pg.mkPlayerMatch (Some 2%Q) (Some 2%Q) (Some 0%Q) (Some 2%Q)]
            [Pg.mkPlayer 1 (JS.JStr "p") JS.JNull
               (Some 2%Q) (Some 2%Q) (Some 6%Q) (Some 2%Q);
             Pg.mkPlayer 2 (JS.JStr "p") JS.JNull
               (Some 1%Q) (Some 0%Q) (Some 0%Q) (Some 2%Q)])
         Pg.Idle.
Proof.
  apply (failed_match_is_committed_later Run2.parse Run.show_number
           Run2.one_then_null_request Run.two_players_request Run.world0
           [Run.entry 1 3 1] [] [Run.entry 1 3 1; Run.entry 2 0 2] 1 1);
    try reflexivity.
  - intros [H|[]]; discriminate H.
  - intros [H|[]]; discriminate H.
  - intros [H|[H|[]]]; discriminate H.
  - intros [H|[H|[]]]; discriminate H.
Defined.
